(** * Refeed: the item router ([packages/trpc/router/items.ts])

    A shallow embedding of the tRPC item router: the paginated
    [getUnreadItems] query with its seven views and the plan-gated
    [searchMultipleItems] query, together with the part of the Prisma
    client they rely on ([item.findMany] with [where], [take], [skip],
    [cursor], [orderBy] and [include]).

    Conventions.
    - Identifiers and text are [string]s; dates are [Z] (milliseconds since
      the epoch, what [Number(date)] yields in the source).
    - The relational store is a snapshot: feeds own their subscription rows
      ([feed.users]), items own their per-user state rows ([user_items]),
      and a state row owns its bookmark-folder links.
    - A handler is a computation over one snapshot that also records the
      store calls it awaits, in order. *)

From Stdlib Require Import List Bool Arith ZArith Lia Ascii String.
From Stdlib Require Import Sorting.Sorted Sorting.Permutation.
From Stdlib Require Import Structures.OrderedTypeEx.
Import ListNotations.

Local Open Scope Z_scope.
Local Open Scope list_scope.

(* ================================================================== *)
(** * Data model *)
(* ================================================================== *)

Module BookmarkLink.
Record t := mk { folder : string; user_id : string }.
End BookmarkLink.

(** A [user_items] row: the state one user keeps about one item. The
    selected [temp_added_time] and [user] are left out: the router never
    reads them. *)
Module UserItem.
Record t := mk {
  user_id : string;
  note : option string;
  marked_read : bool;
  in_read_later : bool;
  marked_read_time : option Z;
  bookmark_folders : list BookmarkLink.t
}.
End UserItem.

(** A [feed.users] row: one user's subscription to one feed. Both dates are
    taken to be set on every row. *)
Module UserFeed.
Record t := mk {
  user_id : string;
  date_added : Z;
  pagination_start_timestamp : Z
}.
End UserFeed.

Module Feed.
Record t := mk {
  id : string;
  title : string;
  logo_url : option string;
  users : list UserFeed.t
}.
End Feed.

Module Item.
Record t := mk {
  id : string;
  title : string;
  website_content : option string;
  created_at : Z;
  from_newsletter : bool;
  feed_id : option string;
  user_items : list UserItem.t
}.
End Item.

Record Store := mkStore {
  feeds : list Feed.t;
  items : list Item.t
}.

(** What [include: { feed: { select: ... } }] attaches to a fetched item. *)
Module FetchedFeed.
Record t := mk {
  title : string;
  logo_url : option string;
  users : list UserFeed.t
}.
End FetchedFeed.

(** A row as [findMany] returns it: the item's scalars, the selected part of
    its feed ([None] when the item has no feed), and its [user_items] rows
    ([None] when the relation was not included). *)
Module Fetched.
Record t := mk {
  item : Item.t;
  feed : option FetchedFeed.t;
  user_items : option (list UserItem.t)
}.
Definition id (r : t) : string := Item.id (item r).
End Fetched.

(* ================================================================== *)
(** * Strings: the [contains] filter in [mode: "insensitive"] *)
(* ================================================================== *)

(** Case folding of the ASCII letters; every other byte is compared as it
    is. *)
Definition lower (c : ascii) : ascii :=
  let n := nat_of_ascii c in
  if (Nat.leb 65 n && Nat.leb n 90)%bool then ascii_of_nat (n + 32) else c.

Fixpoint lowercase (s : string) : string :=
  match s with
  | EmptyString => EmptyString
  | String c s' => String (lower c) (lowercase s')
  end.

(** Literal containment: [q] occurs in [s] as a contiguous substring. *)
Fixpoint containsb (q s : string) : bool :=
  (String.prefix q s ||
   match s with
   | EmptyString => false
   | String _ s' => containsb q s'
   end)%bool.

(** The case-insensitive substring test: literal containment after case
    folding. *)
Definition substring_insensitive (q s : string) : bool :=
  containsb (lowercase q) (lowercase s).

(** The three characters with a meaning of their own in a pattern. *)
Definition percent : ascii := "%"%char.
Definition underscore : ascii := "_"%char.
Definition backslash : ascii := ascii_of_nat 92.

(** Matching a string against a pattern: [%] stands for any run of
    characters, [_] for any one character, a backslash makes the character
    after it literal, and every other character stands for itself. A pattern
    that ends in a lone backslash matches nothing. *)
Fixpoint like (p : string) : string -> bool :=
  match p with
  | EmptyString =>
      fun s => match s with EmptyString => true | String _ _ => false end
  | String c p' =>
      if Ascii.eqb c percent then
        fix run (s : string) : bool :=
          (like p' s ||
           match s with
           | EmptyString => false
           | String _ s' => run s'
           end)%bool
      else if Ascii.eqb c underscore then
        fun s => match s with
                 | EmptyString => false
                 | String _ s' => like p' s'
                 end
      else if Ascii.eqb c backslash then
        match p' with
        | EmptyString => fun _ => false
        | String x p'' =>
            fun s => match s with
                     | EmptyString => false
                     | String y s' => (Ascii.eqb x y && like p'' s')%bool
                     end
        end
      else
        fun s => match s with
                 | EmptyString => false
                 | String y s' => (Ascii.eqb c y && like p' s')%bool
                 end
  end.

(** [{ contains: q, mode: "insensitive" }] on a column: the store compares
    the column with the pattern [%q%] without regard to case, and the query
    goes into the pattern as it is, so a [%], [_] or backslash inside [q]
    keeps its pattern meaning. *)
Definition contains_insensitive (q s : string) : bool :=
  like (lowercase (String percent (q ++ String percent EmptyString)))
       (lowercase s).

(** A query none of whose characters has a pattern meaning. *)
Definition plainChar (c : ascii) : bool :=
  negb (Ascii.eqb c percent || Ascii.eqb c underscore || Ascii.eqb c backslash).

Fixpoint plainQuery (q : string) : bool :=
  match q with
  | EmptyString => true
  | String c q' => plainChar c && plainQuery q'
  end.

(* ================================================================== *)
(** * Prisma filters *)
(* ================================================================== *)

Inductive SortOrder := asc | desc.

(** [{ contains: q, mode: "insensitive" }]; an [undefined] [contains]
    leaves the field unconstrained. *)
Record StringFilter := mkStringFilter {
  contains : option string
}.

(** Conditions on one [user_items] row. An object literal with several
    fields is the conjunction of its fields. *)
Inductive UserItemWhere :=
| UW_user_id (u : string)
| UW_marked_read (b : bool)
| UW_in_read_later (b : bool)
| UW_marked_read_time_gte (t : Z)
| UW_bookmark_folders_some_user_id (u : string)
| UW_AND (a b : UserItemWhere)
| UW_OR (a b : UserItemWhere).

(** [user_items: { some, every, none }]. *)
Record UserItemsWhere := mkUserItemsWhere {
  uis_some : option UserItemWhere;
  uis_every : option UserItemWhere;
  uis_none : option UserItemWhere
}.

(** [feed: { users: { some: { user_id } }, items: { every: { created_at:
    { gte } } } }]. *)
Record FeedWhere := mkFeedWhere {
  fw_users_some_user_id : option string;
  fw_items_every_created_at_gte : option Z
}.

Inductive FeedIdFilter :=
| FeedIdEquals (f : string)
| FeedIdIn (fs : list string).

(** The [where] argument of [item.findMany]. Every field is optional:
    Prisma drops a field whose value is [undefined]. *)
Record ItemWhere := mkItemWhere {
  w_title : option StringFilter;
  w_website_content : option StringFilter;
  w_from_newsletter : option bool;
  w_feed_id : option FeedIdFilter;
  w_feed : option FeedWhere;
  w_user_items : option UserItemsWhere
}.

Record ItemInclude := mkItemInclude {
  (** [feed.users] is selected, restricted to this user's rows. *)
  inc_feed_users_of : option string;
  (** [user_items] is included (all of the item's rows). *)
  inc_user_items : bool
}.

Record FindManyArgs := mkFindManyArgs {
  fm_where : ItemWhere;
  fm_take : Z;
  fm_skip : nat;
  fm_cursor : option string;
  fm_orderBy : option SortOrder;
  fm_include : ItemInclude
}.

(** ** Evaluating a filter on a snapshot *)

Definition optb {A} (o : option A) (p : A -> bool) : bool :=
  match o with
  | None => true
  | Some a => p a
  end.

Definition evalStringFilter (f : StringFilter) (s : string) : bool :=
  optb (contains f) (fun q => contains_insensitive q s).

(** A nullable column never satisfies a [contains] condition when null. *)
Definition evalStringFilterNullable (f : StringFilter) (s : option string) : bool :=
  match contains f with
  | None => true
  | Some q =>
      match s with
      | None => false
      | Some c => contains_insensitive q c
      end
  end.

Fixpoint evalUserItemWhere (w : UserItemWhere) (r : UserItem.t) : bool :=
  match w with
  | UW_user_id u => String.eqb (UserItem.user_id r) u
  | UW_marked_read b => Bool.eqb (UserItem.marked_read r) b
  | UW_in_read_later b => Bool.eqb (UserItem.in_read_later r) b
  | UW_marked_read_time_gte t =>
      match UserItem.marked_read_time r with
      | None => false
      | Some rt => t <=? rt
      end
  | UW_bookmark_folders_some_user_id u =>
      existsb (fun l => String.eqb (BookmarkLink.user_id l) u)
              (UserItem.bookmark_folders r)
  | UW_AND a b => evalUserItemWhere a r && evalUserItemWhere b r
  | UW_OR a b => evalUserItemWhere a r || evalUserItemWhere b r
  end.

Definition evalUserItemsWhere (w : UserItemsWhere) (rows : list UserItem.t) : bool :=
  optb (uis_some w) (fun c => existsb (evalUserItemWhere c) rows)
  && optb (uis_every w) (fun c => forallb (evalUserItemWhere c) rows)
  && optb (uis_none w) (fun c => negb (existsb (evalUserItemWhere c) rows)).

Definition findFeed (st : Store) (fid : string) : option Feed.t :=
  find (fun f => String.eqb (Feed.id f) fid) (feeds st).

(** The relation [item.feed]. *)
Definition feedOf (st : Store) (i : Item.t) : option Feed.t :=
  match Item.feed_id i with
  | None => None
  | Some fid => findFeed st fid
  end.

(** The relation [feed.items]. *)
Definition itemsOfFeed (st : Store) (f : Feed.t) : list Item.t :=
  filter (fun i => match Item.feed_id i with
                   | Some fid => String.eqb fid (Feed.id f)
                   | None => false
                   end) (items st).

Definition evalFeedWhere (st : Store) (w : FeedWhere) (f : Feed.t) : bool :=
  optb (fw_users_some_user_id w)
       (fun u => existsb (fun s => String.eqb (UserFeed.user_id s) u) (Feed.users f))
  && optb (fw_items_every_created_at_gte w)
       (fun t => forallb (fun i => t <=? Item.created_at i) (itemsOfFeed st f)).

Definition evalFeedIdFilter (w : FeedIdFilter) (fid : option string) : bool :=
  match fid with
  | None => false
  | Some f =>
      match w with
      | FeedIdEquals g => String.eqb f g
      | FeedIdIn gs => existsb (String.eqb f) gs
      end
  end.

Definition evalWhere (st : Store) (w : ItemWhere) (i : Item.t) : bool :=
  optb (w_title w) (fun f => evalStringFilter f (Item.title i))
  && optb (w_website_content w)
       (fun f => evalStringFilterNullable f (Item.website_content i))
  && optb (w_from_newsletter w) (fun b => Bool.eqb (Item.from_newsletter i) b)
  && optb (w_feed_id w) (fun f => evalFeedIdFilter f (Item.feed_id i))
  && optb (w_feed w)
       (fun fw => match feedOf st i with
                  | None => false
                  | Some f => evalFeedWhere st fw f
                  end)
  && optb (w_user_items w) (fun uw => evalUserItemsWhere uw (Item.user_items i)).

(* ================================================================== *)
(** * Prisma [findMany] *)
(* ================================================================== *)

Section Sorting.
Context {A : Type} (le : A -> A -> bool).

(** Stable insertion: [x] goes before the first element it does not
    exceed. *)
Fixpoint insertBy (x : A) (l : list A) : list A :=
  match l with
  | [] => [x]
  | y :: l' => if le x y then x :: l else y :: insertBy x l'
  end.

Definition sortBy (l : list A) : list A := fold_right insertBy [] l.

Fixpoint dropWhile (p : A -> bool) (l : list A) : list A :=
  match l with
  | [] => []
  | x :: l' => if p x then dropWhile p l' else l
  end.
End Sorting.

Definition flipOrder (o : SortOrder) : SortOrder :=
  match o with
  | asc => desc
  | desc => asc
  end.

(** [id_le o a b]: under ordering [o], id [a] comes no later than id [b]. *)
Definition id_le (o : SortOrder) (a b : string) : bool :=
  match o with
  | asc => String.leb a b
  | desc => String.leb b a
  end.

(** [orderBy: { id: d }]; without [orderBy] the rows come as the store
    yields them, which is the order of [items]. *)
Definition orderRows (o : option SortOrder) (rows : list Item.t) : list Item.t :=
  match o with
  | None => rows
  | Some d => sortBy (fun a b => id_le d (Item.id a) (Item.id b)) rows
  end.

(** Rows from the cursor row onwards. With an ordering this is the
    comparison Prisma generates against the cursor row's key (no row at all
    when the cursor names no row of the table); without one it is the
    position of the cursor row in the rows as the store yields them. *)
Definition fromCursor (st : Store) (o : option SortOrder) (c : option string)
    (rows : list Item.t) : list Item.t :=
  match c with
  | None => rows
  | Some cid =>
      match o with
      | Some d =>
          if existsb (fun i => String.eqb (Item.id i) cid) (items st)
          then filter (fun i => id_le d cid (Item.id i)) rows
          else []
      | None => dropWhile (fun i => negb (String.eqb (Item.id i) cid)) rows
      end
  end.

Definition includeRelations (st : Store) (inc : ItemInclude) (i : Item.t) : Fetched.t :=
  {| Fetched.item := i;
     Fetched.feed :=
       match feedOf st i with
       | None => None
       | Some f =>
           Some {| FetchedFeed.title := Feed.title f;
                   FetchedFeed.logo_url := Feed.logo_url f;
                   FetchedFeed.users :=
                     match inc_feed_users_of inc with
                     | None => []
                     | Some u =>
                         filter (fun s => String.eqb (UserFeed.user_id s) u)
                                (Feed.users f)
                     end |}
       end;
     Fetched.user_items :=
       if inc_user_items inc then Some (Item.user_items i) else None |}.

(** The rows selected by a query, before relations are attached. A negative
    [take] pages backwards: the ordering is reversed, the page cut, and the
    page handed back in the requested ordering. *)
Definition selectRows (st : Store) (a : FindManyArgs) : list Item.t :=
  let matching := filter (evalWhere st (fm_where a)) (items st) in
  let backwards := fm_take a <? 0 in
  let dir :=
    option_map (fun d => if backwards then flipOrder d else d) (fm_orderBy a) in
  let ordered :=
    match dir with
    | Some _ => orderRows dir matching
    | None => if backwards then rev matching else matching
    end in
  let page :=
    firstn (Z.abs_nat (fm_take a))
           (skipn (fm_skip a) (fromCursor st dir (fm_cursor a) ordered)) in
  if backwards then rev page else page.

Definition findMany (st : Store) (a : FindManyArgs) : list Fetched.t :=
  map (includeRelations st (fm_include a)) (selectRows st a).

(* ================================================================== *)
(** * Handlers as computations over a snapshot *)
(* ================================================================== *)

(** The store calls a handler awaits. *)
Inductive StoreCall :=
| CallFindMany (a : FindManyArgs)
| CallGetFolderFeedIds (folder : option string) (user : string).

(** A computation reads one snapshot and logs its store calls in order. *)
Definition Prisma (A : Type) : Type := Store -> A * list StoreCall.

Definition ret {A} (a : A) : Prisma A := fun _ => (a, []).

Definition bind {A B} (m : Prisma A) (k : A -> Prisma B) : Prisma B :=
  fun st =>
    let (a, l1) := m st in
    let (b, l2) := k a st in
    (b, l1 ++ l2).

Notation "x <- m ;; k" := (bind m (fun x => k))
  (at level 61, m at next level, right associativity).

Definition result {A} (m : Prisma A) (st : Store) : A := fst (m st).
Definition calls {A} (m : Prisma A) (st : Store) : list StoreCall := snd (m st).

Definition findManyM (a : FindManyArgs) : Prisma (list Fetched.t) :=
  fun st => (findMany st a, [CallFindMany a]).

(** ** The flat item handed to the client *)

Module FlatItem.
Record t := mk {
  id : string;
  title : string;
  website_content : option string;
  feed_title : option string;
  feed_logo : option string;
  marked_read : bool;
  in_read_later : bool;
  note : option string;
  bookmark_folders : list string;
  created_at : Z;
  marked_read_time : option Z
}.
End FlatItem.

(** Modelled from the spec: [transformItems] of [./utils/transformItems]
    (ItemProjector). It flattens a fetched row into one record: id, title,
    content, feed title, feed logo, read flag, saved-for-later flag, note,
    bookmark folder names, creation time and read time. The per-user state
    is the first [user_items] row; without one the item is unread and
    unsaved. *)
Definition transformItem (r : Fetched.t) : FlatItem.t :=
  let st := match Fetched.user_items r with
            | Some (s :: _) => Some s
            | _ => None
            end in
  {| FlatItem.id := Item.id (Fetched.item r);
     FlatItem.title := Item.title (Fetched.item r);
     FlatItem.website_content := Item.website_content (Fetched.item r);
     FlatItem.feed_title := option_map FetchedFeed.title (Fetched.feed r);
     FlatItem.feed_logo :=
       match Fetched.feed r with
       | Some f => FetchedFeed.logo_url f
       | None => None
       end;
     FlatItem.marked_read :=
       match st with Some s => UserItem.marked_read s | None => false end;
     FlatItem.in_read_later :=
       match st with Some s => UserItem.in_read_later s | None => false end;
     FlatItem.note :=
       match st with Some s => UserItem.note s | None => None end;
     FlatItem.bookmark_folders :=
       match st with
       | Some s => map BookmarkLink.folder (UserItem.bookmark_folders s)
       | None => []
       end;
     FlatItem.created_at := Item.created_at (Fetched.item r);
     FlatItem.marked_read_time :=
       match st with Some s => UserItem.marked_read_time s | None => None end |}.

Definition transformItems (rows : list Fetched.t) : list FlatItem.t :=
  map transformItem rows.

(** The last element of a page, if any. *)
Definition lastOf {A} (l : list A) : option A := last (map Some l) None.

(** Modelled from the spec: [getNextPrismaCursor] of
    [../../lib/getNextPrismaCursor] (KeysetPaginator output). The cursor is
    the id of the last item of the page when the page is exactly [amount]
    items long, and absent otherwise. *)
Definition getNextPrismaCursor {A} (idOf : A -> string) (page : list A)
    (amount : Z) : option string :=
  if Z.of_nat (List.length page) =? amount
  then option_map idOf (lastOf page)
  else None.

(** ** Collaborators that live outside this file

    - [getFolderFeedIds (folder, user, prisma)] resolves a folder to the ids
      of its feeds; it is awaited, so it is a store call. The field gives
      the ids of a call that returns. A call that rejects ends the request
      at that point, before the [findMany] of the view; what is stated
      below about the page of the "multiple" view is about requests whose
      folder resolves.
    - [removeDuplicates (items, user, prisma, flag)] is the duplicate
      suppressor. The handler uses its result without awaiting anything, so
      the page it hands back is a function of its arguments alone.
    - [translate] is [NodeHtmlMarkdown.translate]. *)
Class Collaborators := {
  getFolderFeedIds : option string -> string -> Store -> list string;
  removeDuplicates : list FlatItem.t -> string -> bool -> list FlatItem.t;
  translate : string -> string
}.

Definition getFolderFeedIdsM `{Collaborators} (folder : option string)
    (user : string) : Prisma (list string) :=
  fun st => (getFolderFeedIds folder user st, [CallGetFolderFeedIds folder user]).

(* ================================================================== *)
(** * [getUnreadItems] *)
(* ================================================================== *)

Inductive Sort :=
| Latest
| Oldest
| ReadabilityAscending
| ReadabilityDescending
| ContentLengthAscending
| ContentLengthDescending.

Inductive ViewType :=
| all
| one
| recentlyread
| bookmarks
| multiple
| discover
| newsletters.

(** The validated input. [amount] is an integer: the store refuses any
    other [take]. *)
Module Input.
Record t := mk {
  amount : Z;
  sort : Sort;
  type : ViewType;
  folder : option string;
  feed_id : option string;
  cursor : option string
}.
End Input.

(** The request context: the authenticated user and the handler's reading
    of the clock. The store handle is the snapshot the computation runs on. *)
Module Ctx.
Record t := mk {
  user_id : string;
  now : Z
}.
End Ctx.

Record Response := mkResponse {
  transformedItems : list FlatItem.t;
  nextCursor : option string
}.

(** [new Date()] moved back thirty days ([setDate(getDate() - 30)], taken
    as thirty days of 86400000 ms). *)
Definition thirtyDaysAgo (ctx : Ctx.t) : Z := Ctx.now ctx - 30 * 86400000.

Definition ViewType_eqb (a b : ViewType) : bool :=
  match a, b with
  | all, all | one, one | recentlyread, recentlyread | bookmarks, bookmarks
  | multiple, multiple | discover, discover | newsletters, newsletters => true
  | _, _ => false
  end.

(** [sharedQuery], completed with the view's [where]. *)
Definition sharedQuery (ctx : Ctx.t) (input : Input.t) (w : ItemWhere) : FindManyArgs :=
  {| fm_where := w;
     fm_take := Input.amount input;
     fm_skip := match Input.cursor input with None => 0%nat | Some _ => 1%nat end;
     fm_cursor := Input.cursor input;
     fm_orderBy :=
       if negb (ViewType_eqb (Input.type input) recentlyread)
       then match Input.sort input with
            | Latest => Some desc
            | Oldest => Some asc
            | _ => None
            end
       else Some desc;
     fm_include :=
       {| inc_feed_users_of := Some (Ctx.user_id ctx);
          inc_user_items :=
            match Input.type input with
            | recentlyread | bookmarks | newsletters => true
            | _ => false
            end |} |}.

(** [user_items: { none: { AND: [{ marked_read: true }, { user_id }] } }]. *)
Definition notReadBy (u : string) : UserItemsWhere :=
  {| uis_some := None; uis_every := None;
     uis_none := Some (UW_AND (UW_marked_read true) (UW_user_id u)) |}.

Definition whereBookmarks (ctx : Ctx.t) : ItemWhere :=
  {| w_title := None; w_website_content := None; w_from_newsletter := None;
     w_feed_id := None; w_feed := None;
     w_user_items :=
       Some {| uis_some :=
                 Some (UW_OR (UW_in_read_later true)
                             (UW_bookmark_folders_some_user_id (Ctx.user_id ctx)));
               uis_every := Some (UW_user_id (Ctx.user_id ctx));
               uis_none := None |} |}.

Definition whereRecentlyRead (ctx : Ctx.t) : ItemWhere :=
  {| w_title := None; w_website_content := None; w_from_newsletter := None;
     w_feed_id := None; w_feed := None;
     w_user_items :=
       Some {| uis_some :=
                 Some (UW_AND (UW_marked_read true)
                              (UW_marked_read_time_gte (thirtyDaysAgo ctx)));
               uis_every := Some (UW_user_id (Ctx.user_id ctx));
               uis_none := None |} |}.

Definition whereDiscover (ctx : Ctx.t) (input : Input.t) : ItemWhere :=
  {| w_title := None; w_website_content := None; w_from_newsletter := None;
     w_feed_id := option_map FeedIdEquals (Input.feed_id input);
     w_feed :=
       Some {| fw_users_some_user_id := None;
               fw_items_every_created_at_gte := Some (thirtyDaysAgo ctx) |};
     w_user_items := Some (notReadBy (Ctx.user_id ctx)) |}.

Definition whereAll (ctx : Ctx.t) : ItemWhere :=
  {| w_title := None; w_website_content := None; w_from_newsletter := None;
     w_feed_id := None;
     w_feed :=
       Some {| fw_users_some_user_id := Some (Ctx.user_id ctx);
               fw_items_every_created_at_gte := Some (thirtyDaysAgo ctx) |};
     w_user_items := Some (notReadBy (Ctx.user_id ctx)) |}.

(** The [where] of the shared "one"/"multiple" branch, given the value of
    its [feed_id] field. *)
Definition whereFeeds (ctx : Ctx.t) (fid : option FeedIdFilter) : ItemWhere :=
  {| w_title := None; w_website_content := None; w_from_newsletter := None;
     w_feed_id := fid;
     w_feed :=
       Some {| fw_users_some_user_id := Some (Ctx.user_id ctx);
               fw_items_every_created_at_gte := Some (thirtyDaysAgo ctx) |};
     w_user_items := Some (notReadBy (Ctx.user_id ctx)) |}.

Definition whereNewsletters : ItemWhere :=
  {| w_title := None; w_website_content := None; w_from_newsletter := Some true;
     w_feed_id := None; w_feed := None; w_user_items := None |}.

(** ** The in-memory sort of the recently-read page *)

(** [Number(x)] for the values met here: a date, [null] or [undefined]. *)
Inductive Num :=
| NaN
| Fin (z : Z).

(** [Number(obj.user_items[0]?.marked_read_time)]. *)
Definition readTimeNumber (r : Fetched.t) : Num :=
  match Fetched.user_items r with
  | Some (s :: _) =>
      match UserItem.marked_read_time s with
      | Some t => Fin t
      | None => Fin 0
      end
  | _ => NaN
  end.

Definition numSub (a b : Num) : Num :=
  match a, b with
  | Fin x, Fin y => Fin (x - y)
  | _, _ => NaN
  end.

(** [Array.prototype.sort] is a stable sort that places [a] before [b] when
    the comparator is not positive; it reads a [NaN] result as [0]. *)
Definition jsSort {A} (cmp : A -> A -> Num) (l : list A) : list A :=
  sortBy (fun a b => match cmp a b with
                     | NaN => true
                     | Fin z => z <=? 0
                     end) l.

Definition byReadTimeDesc (objA objB : Fetched.t) : Num :=
  numSub (readTimeNumber objB) (readTimeNumber objA).

Definition byReadTimeAsc (objA objB : Fetched.t) : Num :=
  numSub (readTimeNumber objA) (readTimeNumber objB).

(** The item of the "all" page survives when its feed was added no later
    than the item: [item.feed?.users[0]?.pagination_start_timestamp <=
    item.created_at], which is false when the left side is [undefined]. *)
Definition afterPaginationStart (item : Fetched.t) : bool :=
  match Fetched.feed item with
  | Some f =>
      match FetchedFeed.users f with
      | s :: _ =>
          UserFeed.pagination_start_timestamp s <=? Item.created_at (Fetched.item item)
      | [] => false
      end
  | None => false
  end.

Definition getUnreadItems `{Collaborators} (ctx : Ctx.t) (input : Input.t)
    : Prisma Response :=
  match Input.type input with
  | bookmarks =>
      items <- findManyM (sharedQuery ctx input (whereBookmarks ctx)) ;;
      let nextCursor := getNextPrismaCursor Fetched.id items (Input.amount input) in
      let transformedItems := transformItems items in
      ret {| transformedItems := transformedItems; nextCursor := nextCursor |}
  | recentlyread =>
      items <- findManyM (sharedQuery ctx input (whereRecentlyRead ctx)) ;;
      (* Sort recently read Items (Make sure it gets the cursor before
         running this) *)
      let items :=
        match Input.sort input with
        | Latest => jsSort byReadTimeDesc items
        | Oldest => jsSort byReadTimeAsc items
        | _ => items
        end in
      let transformedItems := transformItems items in
      let nextCursor :=
        getNextPrismaCursor FlatItem.id transformedItems (Input.amount input) in
      let transformedItems :=
        removeDuplicates transformedItems (Ctx.user_id ctx) false in
      ret {| transformedItems := transformedItems; nextCursor := nextCursor |}
  | discover =>
      items <- findManyM (sharedQuery ctx input (whereDiscover ctx input)) ;;
      let transformedItems := transformItems items in
      let nextCursor :=
        getNextPrismaCursor FlatItem.id transformedItems (Input.amount input) in
      let transformedItems :=
        removeDuplicates transformedItems (Ctx.user_id ctx) false in
      ret {| transformedItems := transformedItems; nextCursor := nextCursor |}
  | all =>
      items <- findManyM (sharedQuery ctx input (whereAll ctx)) ;;
      (* Loop through the items and make sure it starts at the
         pagination_start_timestamp *)
      let itemsAfterDate := filter afterPaginationStart items in
      let transformedItems := transformItems itemsAfterDate in
      let nextCursor :=
        getNextPrismaCursor FlatItem.id transformedItems (Input.amount input) in
      let transformedItems :=
        removeDuplicates transformedItems (Ctx.user_id ctx) true in
      ret {| transformedItems := transformedItems; nextCursor := nextCursor |}
  | one | multiple =>
      fid <- match Input.type input with
             | multiple =>
                 ids <- getFolderFeedIdsM (Input.folder input) (Ctx.user_id ctx) ;;
                 ret (Some (FeedIdIn ids))
             | one => ret (option_map FeedIdEquals (Input.feed_id input))
             | _ => ret None
             end ;;
      items <- findManyM (sharedQuery ctx input (whereFeeds ctx fid)) ;;
      let transformedItems := transformItems items in
      let nextCursor :=
        getNextPrismaCursor FlatItem.id transformedItems (Input.amount input) in
      let transformedItems :=
        removeDuplicates transformedItems (Ctx.user_id ctx) true in
      ret {| transformedItems := transformedItems; nextCursor := nextCursor |}
  | newsletters =>
      items <- findManyM (sharedQuery ctx input whereNewsletters) ;;
      let transformedItems := transformItems items in
      let nextCursor :=
        getNextPrismaCursor FlatItem.id transformedItems (Input.amount input) in
      ret {| transformedItems := transformedItems; nextCursor := nextCursor |}
  end.

(** ** Paging through a view

    A client that keeps the request fixed and feeds each [nextCursor] back
    as the next [cursor], until no cursor comes back. [fuel] bounds the
    number of requests. *)

Definition withCursor (input : Input.t) (c : option string) : Input.t :=
  {| Input.amount := Input.amount input;
     Input.sort := Input.sort input;
     Input.type := Input.type input;
     Input.folder := Input.folder input;
     Input.feed_id := Input.feed_id input;
     Input.cursor := c |}.

Fixpoint pagesFrom `{Collaborators} (fuel : nat) (ctx : Ctx.t) (input : Input.t)
    (st : Store) : list Response :=
  match fuel with
  | O => []
  | S fuel' =>
      let r := result (getUnreadItems ctx input) st in
      r :: match nextCursor r with
           | None => []
           | Some c => pagesFrom fuel' ctx (withCursor input (Some c)) st
           end
  end.

(* ================================================================== *)
(** * [searchMultipleItems] and [searchMultipleItemsWithFormatting] *)
(* ================================================================== *)

Inductive Plan := free | pro.

Module SearchInput.
Record t := mk {
  query : option string;
  plan : Plan;
  take : Z
}.
End SearchInput.

(** A search hit: the fetched row and the [feed_title] put next to it. *)
Module SearchItem.
Record t := mk {
  row : Fetched.t;
  feed_title : option string
}.
Definition id (h : t) : string := Fetched.id (row h).
End SearchItem.

Definition searchInclude : ItemInclude :=
  {| inc_feed_users_of := None; inc_user_items := false |}.

Definition subscribedBy (u : string) : FeedWhere :=
  {| fw_users_some_user_id := Some u; fw_items_every_created_at_gte := None |}.

Definition whereSearch (ctx : Ctx.t) (input : SearchInput.t) : ItemWhere :=
  {| w_title := Some {| contains := SearchInput.query input |};
     w_website_content :=
       match SearchInput.plan input with
       | free => None
       | pro => Some {| contains := SearchInput.query input |}
       end;
     w_from_newsletter := None;
     w_feed_id := None;
     w_feed := Some (subscribedBy (Ctx.user_id ctx));
     w_user_items := None |}.

Definition searchArgs (w : ItemWhere) (take : Z) : FindManyArgs :=
  {| fm_where := w; fm_take := take; fm_skip := 0%nat; fm_cursor := None;
     fm_orderBy := None; fm_include := searchInclude |}.

Definition setWebsiteContent (c : option string) (i : Item.t) : Item.t :=
  {| Item.id := Item.id i;
     Item.title := Item.title i;
     Item.website_content := c;
     Item.created_at := Item.created_at i;
     Item.from_newsletter := Item.from_newsletter i;
     Item.feed_id := Item.feed_id i;
     Item.user_items := Item.user_items i |}.

(** The loop body of [searchMultipleItems]: the content becomes markdown
    ([website_content ?? ""] translated) and the feed's title is copied next
    to the item. *)
Definition toSearchItem `{Collaborators} (item : Fetched.t) : SearchItem.t :=
  {| SearchItem.row :=
       {| Fetched.item :=
            setWebsiteContent
              (Some (translate
                       (match Item.website_content (Fetched.item item) with
                        | Some c => c
                        | None => EmptyString
                        end)))
              (Fetched.item item);
          Fetched.feed := Fetched.feed item;
          Fetched.user_items := Fetched.user_items item |};
     SearchItem.feed_title := option_map FetchedFeed.title (Fetched.feed item) |}.

Definition searchMultipleItems `{Collaborators} (ctx : Ctx.t)
    (input : SearchInput.t) : Prisma (list SearchItem.t) :=
  searchItems <- findManyM (searchArgs (whereSearch ctx input) (SearchInput.take input)) ;;
  ret (map toSearchItem searchItems).



(* ================================================================== *)
(** * A concrete set of collaborators *)
(* ================================================================== *)

Section KeepFirst.
Context {A : Type} (key : A -> string).

Fixpoint keepFirstBy (seen : list string) (l : list A) : list A :=
  match l with
  | [] => []
  | x :: l' =>
      if existsb (String.eqb (key x)) seen
      then keepFirstBy seen l'
      else x :: keepFirstBy (key x :: seen) l'
  end.
End KeepFirst.

(** Modelled from the spec: [removeDuplicates] of [./utils/removeDuplicates]
    (DuplicateSuppressor). The page keeps at most one representative per
    duplicate group, the earliest in page order. The spec leaves the
    fingerprint of a group open and suggests the title; this instance groups
    by title, for either value of the flag. *)
Definition removeDuplicatesByTitle (page : list FlatItem.t) (user : string)
    (flag : bool) : list FlatItem.t :=
  keepFirstBy FlatItem.title [] page.

(** A folder resolver over an explicit table of (folder, feed ids). A
    request without folder resolves to no feed. *)
Definition folderTable (table : list (string * list string))
    (folder : option string) (user : string) (st : Store) : list string :=
  match folder with
  | None => []
  | Some f =>
      match find (fun p => String.eqb (fst p) f) table with
      | Some p => snd p
      | None => []
      end
  end.

Definition sampleCollaborators (table : list (string * list string)) : Collaborators :=
  {| getFolderFeedIds := folderTable table;
     removeDuplicates := removeDuplicatesByTitle;
     translate := fun s => s |}.

(* ================================================================== *)
(** * Notions used by the statements *)
(* ================================================================== *)

(** [subseq l1 l2]: [l1] is [l2] with some elements removed. *)
Inductive subseq {A : Type} : list A -> list A -> Prop :=
| subseq_nil : subseq [] []
| subseq_skip : forall x l1 l2, subseq l1 l2 -> subseq l1 (x :: l2)
| subseq_keep : forall x l1 l2, subseq l1 l2 -> subseq (x :: l1) (x :: l2).

(** A boolean order read as a relation. *)
Definition holds {A : Type} (le : A -> A -> bool) (a b : A) : Prop :=
  le a b = true.

(** The order [orderBy: { id: d }] puts on rows. *)
Definition rows_in_order (d : SortOrder) : Item.t -> Item.t -> bool :=
  fun a b => id_le d (Item.id a) (Item.id b).

(** The duplicate suppressor hands back part of the page it was given, in
    the order it was given. *)
Definition suppresses_within_page `{Collaborators} : Prop :=
  forall page user flag, subseq (removeDuplicates page user flag) page.

(** Item ids are a primary key. *)
Definition unique_item_ids (st : Store) : Prop :=
  NoDup (map Item.id (items st)).

(** A user has at most one subscription row per feed. *)
Definition unique_subscriptions (st : Store) : Prop :=
  forall f, In f (feeds st) -> NoDup (map UserFeed.user_id (Feed.users f)).

(** Whether a view hands its page to the duplicate suppressor, and with
    which flag. *)
Definition suppressionFlag (t : ViewType) : option bool :=
  match t with
  | all | one | multiple => Some true
  | recentlyread | discover => Some false
  | bookmarks | newsletters => None
  end.

(** ** The handler as a pipeline

    The stages of [getUnreadItems] named one by one: the view's [where]
    (with the folder already resolved), the query sent to the store, the
    in-memory step applied to the fetched rows, and the projected page the
    cursor is taken from. [getUnreadItems_result] and [getUnreadItems_calls]
    below show that the handler is their composition. *)

Definition viewWhere `{Collaborators} (ctx : Ctx.t) (input : Input.t)
    (st : Store) : ItemWhere :=
  match Input.type input with
  | bookmarks => whereBookmarks ctx
  | recentlyread => whereRecentlyRead ctx
  | discover => whereDiscover ctx input
  | all => whereAll ctx
  | one => whereFeeds ctx (option_map FeedIdEquals (Input.feed_id input))
  | multiple =>
      whereFeeds ctx
        (Some (FeedIdIn (getFolderFeedIds (Input.folder input) (Ctx.user_id ctx) st)))
  | newsletters => whereNewsletters
  end.

Definition viewQuery `{Collaborators} (ctx : Ctx.t) (input : Input.t)
    (st : Store) : FindManyArgs :=
  sharedQuery ctx input (viewWhere ctx input st).

Definition arrangePage (input : Input.t) (rows : list Fetched.t) : list Fetched.t :=
  match Input.type input with
  | all => filter afterPaginationStart rows
  | recentlyread =>
      match Input.sort input with
      | Latest => jsSort byReadTimeDesc rows
      | Oldest => jsSort byReadTimeAsc rows
      | _ => rows
      end
  | _ => rows
  end.

Definition cursorPage `{Collaborators} (ctx : Ctx.t) (input : Input.t)
    (st : Store) : list FlatItem.t :=
  transformItems (arrangePage input (findMany st (viewQuery ctx input st))).

Definition suppress `{Collaborators} (ctx : Ctx.t) (input : Input.t)
    (page : list FlatItem.t) : list FlatItem.t :=
  match suppressionFlag (Input.type input) with
  | Some flag => removeDuplicates page (Ctx.user_id ctx) flag
  | None => page
  end.

(** [Number(marked_read_time)] of a returned item ([null] reads as [0]). *)
Definition readTime (t : FlatItem.t) : Z :=
  match FlatItem.marked_read_time t with
  | Some z => z
  | None => 0
  end.

(** The pages a list is cut into: the next [n] elements, then, as long as
    the page is full, the pages of what follows. [fuel] bounds their
    number. *)
Fixpoint chunks {A : Type} (fuel n : nat) (rest : list A) : list (list A) :=
  match fuel with
  | O => []
  | S fuel' =>
      let page := firstn n rest in
      page :: if Nat.eqb (List.length page) n
              then chunks fuel' n (skipn n rest)
              else []
  end.

(** A request lacks a parameter its view needs: [feed_id] for "one" and
    "discover", [folder] for "multiple". *)
Definition missing_required_parameter (input : Input.t) : Prop :=
  ((Input.type input = one \/ Input.type input = discover) /\
   Input.feed_id input = None) \/
  (Input.type input = multiple /\ Input.folder input = None).

(** The title passes the [contains] filter of the query (an absent query
    leaves the title unconstrained). *)
Definition titleMatches (query : option string) (i : Item.t) : bool :=
  match query with
  | None => true
  | Some q => contains_insensitive q (Item.title i)
  end.

(** The item's feed is one the user subscribes to. *)
Definition subscribedTo (st : Store) (u : string) (i : Item.t) : bool :=
  match feedOf st i with
  | Some f => existsb (fun s => String.eqb (UserFeed.user_id s) u) (Feed.users f)
  | None => false
  end.


(* ================================================================== *)
(** * Sample snapshots *)
(* ================================================================== *)

Local Open Scope string_scope.

(** The clock reads thirty days and 500 ms: the recency boundary is 500. *)
Definition sampleCtx : Ctx.t := {| Ctx.user_id := "u1"; Ctx.now := 2592000500 |}.

Definition subscription (user : string) (start : Z) : UserFeed.t :=
  {| UserFeed.user_id := user; UserFeed.date_added := start;
     UserFeed.pagination_start_timestamp := start |}.

Definition savedBy (user : string) : UserItem.t :=
  {| UserItem.user_id := user; UserItem.note := None;
     UserItem.marked_read := false; UserItem.in_read_later := true;
     UserItem.marked_read_time := None; UserItem.bookmark_folders := [] |}.

Definition readBy (user : string) (at_ : Z) : UserItem.t :=
  {| UserItem.user_id := user; UserItem.note := None;
     UserItem.marked_read := true; UserItem.in_read_later := false;
     UserItem.marked_read_time := Some at_; UserItem.bookmark_folders := [] |}.

Definition article (id title : string) (created : Z) (feed : string)
    (state : list UserItem.t) : Item.t :=
  {| Item.id := id; Item.title := title; Item.website_content := Some "<p>text</p>";
     Item.created_at := created; Item.from_newsletter := false;
     Item.feed_id := Some feed; Item.user_items := state |}.

Definition request (amount : Z) (sort : Sort) (type : ViewType)
    (feed : option string) : Input.t :=
  {| Input.amount := amount; Input.sort := sort; Input.type := type;
     Input.folder := None; Input.feed_id := feed; Input.cursor := None |}.

Definition feedOne : Feed.t :=
  {| Feed.id := "f1"; Feed.title := "Feed one"; Feed.logo_url := None;
     Feed.users := [subscription "u1" 1000] |}.

Definition feedTwo : Feed.t :=
  {| Feed.id := "f2"; Feed.title := "Feed two"; Feed.logo_url := None;
     Feed.users := [subscription "u1" 1000] |}.

(** Two items of one feed carrying the same title, both saved by [u1]. *)
Definition dupStore : Store :=
  {| feeds := [feedOne];
     items := [article "1" "Release notes" 2000 "f1" [savedBy "u1"];
               article "2" "Release notes" 2100 "f1" [savedBy "u1"]] |}.

(** Three items read by [u1]: "2" at 3000, "1" at 1000 and "0" at 2000. *)
Definition readStore : Store :=
  {| feeds := [feedOne];
     items := [article "0" "Night post" 2200 "f1" [readBy "u1" 2000];
               article "1" "Evening post" 2100 "f1" [readBy "u1" 1000];
               article "2" "Morning post" 2000 "f1" [readBy "u1" 3000]] |}.

(** One unread item in each of two feeds [u1] subscribes to. *)
Definition twoFeedStore : Store :=
  {| feeds := [feedOne; feedTwo];
     items := [article "1" "From feed one" 2000 "f1" [];
               article "2" "From feed two" 2100 "f2" []] |}.

(** Feed one holds an item older than [u1]'s subscription (created at 900,
    subscribed at 1000) and two newer ones. *)
Definition backlogStore : Store :=
  {| feeds := [feedOne];
     items := [article "1" "After subscribing, again" 2100 "f1" [];
               article "2" "After subscribing" 2000 "f1" [];
               article "3" "Before subscribing" 900 "f1" []] |}.

Definition filedBy (user folder : string) : UserItem.t :=
  {| UserItem.user_id := user; UserItem.note := None;
     UserItem.marked_read := false; UserItem.in_read_later := false;
     UserItem.marked_read_time := None;
     UserItem.bookmark_folders :=
       [{| BookmarkLink.folder := folder; BookmarkLink.user_id := user |}] |}.

(** "1" is saved by [u1]; "2" is saved by [u1] and by [u2]; "3" is saved by
    [u2] only; "4" is filed in a bookmark folder by [u1] without being
    saved for later. *)
Definition sharedStore : Store :=
  {| feeds := [feedOne];
     items := [article "1" "Mine" 2000 "f1" [savedBy "u1"];
               article "2" "Ours" 2100 "f1" [savedBy "u1"; savedBy "u2"];
               article "3" "Theirs" 2200 "f1" [savedBy "u2"];
               article "4" "Filed" 2300 "f1" [filedBy "u1" "later"]] |}.

Definition story (id title content : string) : Item.t :=
  {| Item.id := id; Item.title := title; Item.website_content := Some content;
     Item.created_at := 2000; Item.from_newsletter := false;
     Item.feed_id := Some "f1"; Item.user_items := [] |}.




Local Close Scope string_scope.

(* ================================================================== *)
(** * Further notions and snapshots *)
(* ================================================================== *)

(** Ordered by [le], and by [R] among elements [le] does not tell apart. *)
Definition stableOrder {A : Type} (le : A -> A -> bool) (R : A -> A -> Prop)
    (a b : A) : Prop :=
  le a b = true /\ (le b a = true -> R a b).

(** A user has at most one state row per item. *)
Definition unique_state_rows (st : Store) : Prop :=
  forall i, In i (items st) -> NoDup (map UserItem.user_id (Item.user_items i)).

(** The views of unread items. *)
Definition unreadView (t : ViewType) : Prop :=
  t = all \/ t = one \/ t = multiple \/ t = discover.

(** The sorts the router accepts without giving them an ordering. *)
Definition unorderedSort (s : Sort) : Prop :=
  s <> Latest /\ s <> Oldest.

(** Two requests that differ at most in their sort. *)
Definition same_but_sort (a b : Input.t) : Prop :=
  Input.amount a = Input.amount b /\
  Input.type a = Input.type b /\
  Input.folder a = Input.folder b /\
  Input.feed_id a = Input.feed_id b /\
  Input.cursor a = Input.cursor b.

Local Open Scope string_scope.

Definition newsletter (id title : string) (state : list UserItem.t) : Item.t :=
  {| Item.id := id; Item.title := title; Item.website_content := None;
     Item.created_at := 2000; Item.from_newsletter := true;
     Item.feed_id := None; Item.user_items := state |}.

(** Two newsletter items without a feed, one of them read by [u2], and one
    article of feed one. *)
Definition newsletterStore : Store :=
  {| feeds := [feedOne];
     items := [newsletter "1" "Weekly letter" [];
               article "2" "Not a letter" 2000 "f1" [];
               newsletter "3" "Monthly letter" [readBy "u2" 3000]] |}.

Definition otherCtx : Ctx.t := {| Ctx.user_id := "u2"; Ctx.now := 9000000000 |}.

(** [twoFeedStore] with an item of feed one read by [u1] and a third feed,
    which [u1] does not subscribe to and which holds an item older than the
    recency boundary (created at 100, boundary 500). *)
Definition feedThree : Feed.t :=
  {| Feed.id := "f3"; Feed.title := "Feed three"; Feed.logo_url := None;
     Feed.users := [] |}.

Definition mixedStore : Store :=
  {| feeds := [feedOne; feedTwo; feedThree];
     items := [article "1" "From feed one" 2000 "f1" [];
               article "2" "From feed two" 2100 "f2" [];
               article "3" "Read already" 2200 "f1" [readBy "u1" 3000];
               article "4" "Stale feed, new item" 2300 "f3" [];
               article "5" "Stale feed, old item" 100 "f3" []] |}.

(** A store with an item that has no body. *)
Definition bodylessStore : Store :=
  {| feeds := [feedOne];
     items := [story "1" "With body" "text";
               {| Item.id := "2"; Item.title := "Without body";
                  Item.website_content := None; Item.created_at := 2000;
                  Item.from_newsletter := false; Item.feed_id := Some "f1";
                  Item.user_items := [] |}] |}.

(** Three items read by [u1], two of them at the same time. *)
Definition tiedStore : Store :=
  {| feeds := [feedOne];
     items := [article "1" "First" 2000 "f1" [readBy "u1" 3000];
               article "2" "Second" 2100 "f1" [readBy "u1" 1000];
               article "3" "Third" 2200 "f1" [readBy "u1" 3000]] |}.

Local Close Scope string_scope.

(* ================================================================== *)
(** * Order on identifiers *)
(* ================================================================== *)

Lemma string_leb_iff (a b : string) :
  String.leb a b = true <-> a = b \/ String_as_OT.lt a b.
Proof.
  unfold String.leb.
  destruct (String.compare a b) eqn:E.
  - apply String_as_OT.cmp_eq in E. tauto.
  - apply String_as_OT.cmp_lt in E. tauto.
  - split; [discriminate|].
    intros [H | H].
    + apply String_as_OT.cmp_eq in H. unfold String_as_OT.cmp in H. congruence.
    + apply String_as_OT.cmp_lt in H. unfold String_as_OT.cmp in H. congruence.
Qed.

Lemma string_leb_refl (a : string) : String.leb a a = true.
Proof. apply string_leb_iff. now left. Qed.

Lemma string_leb_trans (a b c : string) :
  String.leb a b = true -> String.leb b c = true -> String.leb a c = true.
Proof.
  rewrite !string_leb_iff.
  intros [-> | Hab] [-> | Hbc]; auto.
  right. eapply String_as_OT.lt_trans; eassumption.
Qed.

Lemma id_le_refl (o : SortOrder) (a : string) : id_le o a a = true.
Proof. destruct o; apply string_leb_refl. Qed.

Lemma id_le_total (o : SortOrder) (a b : string) :
  id_le o a b = true \/ id_le o b a = true.
Proof. destruct o; simpl; apply String.leb_total. Qed.

Lemma id_le_trans (o : SortOrder) (a b c : string) :
  id_le o a b = true -> id_le o b c = true -> id_le o a c = true.
Proof. destruct o; simpl; eauto using string_leb_trans. Qed.

Lemma id_le_antisym (o : SortOrder) (a b : string) :
  id_le o a b = true -> id_le o b a = true -> a = b.
Proof.
  destruct o; simpl; intros H1 H2;
    [apply String.leb_antisym | symmetry; apply String.leb_antisym]; assumption.
Qed.

(* ================================================================== *)
(** * Sorting and sub-sequences *)
(* ================================================================== *)

Section SortFacts.
Context {A : Type} (le : A -> A -> bool).

Lemma insertBy_perm (x : A) (l : list A) :
  Permutation (insertBy le x l) (x :: l).
Proof.
  induction l as [|y l IH]; simpl.
  - apply Permutation_refl.
  - destruct (le x y).
    + apply Permutation_refl.
    + eapply perm_trans; [apply perm_skip, IH | apply perm_swap].
Qed.

Lemma sortBy_perm (l : list A) : Permutation (sortBy le l) l.
Proof.
  induction l as [|x l IH]; simpl.
  - constructor.
  - eapply perm_trans; [apply insertBy_perm | now apply perm_skip].
Qed.

Lemma sortBy_In (x : A) (l : list A) : In x (sortBy le l) <-> In x l.
Proof.
  split; apply Permutation_in;
    [apply sortBy_perm | apply Permutation_sym, sortBy_perm].
Qed.

Lemma sortBy_length (l : list A) : List.length (sortBy le l) = List.length l.
Proof. apply Permutation_length, sortBy_perm. Qed.

Hypothesis le_total : forall a b, le a b = true \/ le b a = true.
Hypothesis le_trans : forall a b c, le a b = true -> le b c = true -> le a c = true.

Lemma insertBy_sorted (x : A) (l : list A) :
  StronglySorted (holds le) l -> StronglySorted (holds le) (insertBy le x l).
Proof.
  induction 1 as [|y l Hs IH Hall]; simpl.
  - repeat constructor.
  - destruct (le x y) eqn:E.
    + constructor; [now constructor|].
      constructor; [exact E|].
      eapply Forall_impl; [|exact Hall].
      intros z Hz. eapply le_trans; eassumption.
    + constructor; [exact IH|].
      assert (Hyx : le y x = true)
        by (destruct (le_total x y) as [H|H]; [congruence | exact H]).
      eapply Permutation_Forall; [apply Permutation_sym, insertBy_perm|].
      now constructor.
Qed.

Lemma sortBy_sorted (l : list A) : StronglySorted (holds le) (sortBy le l).
Proof.
  induction l as [|x l IH]; simpl.
  - constructor.
  - now apply insertBy_sorted.
Qed.

(** Stability: a sorted list is left as it is. *)
Lemma sortBy_sorted_id (l : list A) :
  StronglySorted (holds le) l -> sortBy le l = l.
Proof.
  induction 1 as [|x l Hs IH Hall]; simpl; [reflexivity|].
  rewrite IH. destruct l as [|y l]; simpl; [reflexivity|].
  inversion Hall as [|? ? Hxy _]; subst. unfold holds in Hxy. now rewrite Hxy.
Qed.
End SortFacts.

Section SubseqFacts.
Context {A : Type}.

Lemma subseq_refl (l : list A) : subseq l l.
Proof. induction l; constructor; assumption. Qed.

Lemma subseq_nil_l (l : list A) : subseq [] l.
Proof. induction l; constructor; assumption. Qed.

Lemma subseq_In (l1 l2 : list A) (x : A) :
  subseq l1 l2 -> In x l1 -> In x l2.
Proof.
  induction 1 as [|y l1 l2 _ IH|y l1 l2 _ IH]; simpl; intuition.
Qed.

Lemma subseq_length (l1 l2 : list A) :
  subseq l1 l2 -> (List.length l1 <= List.length l2)%nat.
Proof. induction 1; simpl; lia. Qed.

Lemma subseq_trans (l1 l2 l3 : list A) :
  subseq l1 l2 -> subseq l2 l3 -> subseq l1 l3.
Proof.
  intros H12 H23. revert l1 H12.
  induction H23 as [|x l2 l3 _ IH|x l2 l3 _ IH]; intros l1 H12.
  - exact H12.
  - constructor. now apply IH.
  - inversion H12; subst.
    + constructor. now apply IH.
    + apply subseq_keep. now apply IH.
Qed.

Lemma subseq_filter (p : A -> bool) (l : list A) : subseq (filter p l) l.
Proof.
  induction l as [|x l IH]; simpl; [constructor|].
  destruct (p x); constructor; assumption.
Qed.

Lemma subseq_firstn (n : nat) (l : list A) : subseq (firstn n l) l.
Proof.
  revert l; induction n as [|n IH]; intros [|x l]; simpl.
  - constructor.
  - apply subseq_nil_l.
  - constructor.
  - apply subseq_keep, IH.
Qed.

Lemma subseq_skipn (n : nat) (l : list A) : subseq (skipn n l) l.
Proof.
  revert l; induction n as [|n IH]; intros [|x l]; simpl.
  - constructor.
  - apply subseq_refl.
  - constructor.
  - apply subseq_skip, IH.
Qed.

Lemma subseq_dropWhile (p : A -> bool) (l : list A) : subseq (dropWhile p l) l.
Proof.
  induction l as [|x l IH]; simpl; [constructor|].
  destruct (p x); [now constructor | apply subseq_refl].
Qed.

Lemma subseq_StronglySorted (R : A -> A -> Prop) (l1 l2 : list A) :
  subseq l1 l2 -> StronglySorted R l2 -> StronglySorted R l1.
Proof.
  induction 1 as [|x l1 l2 Hs IH|x l1 l2 Hs IH]; intros Hsorted.
  - constructor.
  - inversion Hsorted; subst. auto.
  - inversion Hsorted as [|? ? Hl2 Hall]; subst.
    constructor; [auto|].
    rewrite Forall_forall in *. intros y Hy.
    apply Hall. eapply subseq_In; eassumption.
Qed.

Lemma subseq_NoDup (l1 l2 : list A) :
  subseq l1 l2 -> NoDup l2 -> NoDup l1.
Proof.
  induction 1 as [|x l1 l2 Hs IH|x l1 l2 Hs IH]; intros Hnd.
  - constructor.
  - inversion Hnd; subst. auto.
  - inversion Hnd as [|? ? Hnot Hl2]; subst.
    constructor; [|auto].
    intros Hin. apply Hnot. eapply subseq_In; eassumption.
Qed.
End SubseqFacts.

Lemma subseq_map {A B : Type} (f : A -> B) (l1 l2 : list A) :
  subseq l1 l2 -> subseq (map f l1) (map f l2).
Proof. induction 1; simpl; constructor; assumption. Qed.

(* ================================================================== *)
(** * Facts about [findMany] *)
(* ================================================================== *)

Lemma fromCursor_subseq (st : Store) (o : option SortOrder) (c : option string)
    (rows : list Item.t) :
  subseq (fromCursor st o c rows) rows.
Proof.
  destruct c as [cid|]; simpl; [|apply subseq_refl].
  destruct o as [d|].
  - destruct (existsb _ _); [apply subseq_filter | apply subseq_nil_l].
  - apply subseq_dropWhile.
Qed.

Lemma orderRows_In (o : option SortOrder) (rows : list Item.t) (i : Item.t) :
  In i (orderRows o rows) <-> In i rows.
Proof. destruct o; simpl; [apply sortBy_In | reflexivity]. Qed.

Lemma selectRows_In (st : Store) (a : FindManyArgs) (i : Item.t) :
  In i (selectRows st a) ->
  In i (items st) /\ evalWhere st (fm_where a) i = true.
Proof.
  unfold selectRows. intros H.
  apply filter_In.
  set (m := filter _ (items st)) in *.
  assert (Hpage : forall dir ordered,
             (forall x, In x ordered -> In x m) ->
             forall x, In x (firstn (Z.abs_nat (fm_take a))
                               (skipn (fm_skip a)
                                  (fromCursor st dir (fm_cursor a) ordered))) ->
                       In x m).
  { intros dir ordered Hord x Hx. apply Hord.
    eapply subseq_In; [apply fromCursor_subseq|].
    eapply subseq_In; [apply subseq_skipn|].
    eapply subseq_In; [apply subseq_firstn|]. exact Hx. }
  assert (Hordered : forall x,
             In x (match option_map
                           (fun d => if fm_take a <? 0 then flipOrder d else d)
                           (fm_orderBy a) with
                   | Some _ =>
                       orderRows
                         (option_map
                            (fun d => if fm_take a <? 0 then flipOrder d else d)
                            (fm_orderBy a)) m
                   | None => if fm_take a <? 0 then rev m else m
                   end) -> In x m).
  { intros x. destruct (fm_orderBy a); simpl.
    - apply sortBy_In.
    - destruct (fm_take a <? 0); [intros Hx; now apply in_rev | auto]. }
  destruct (fm_take a <? 0) eqn:E.
  - apply in_rev in H. eapply Hpage; [exact Hordered | exact H].
  - eapply Hpage; [exact Hordered | exact H].
Qed.

Lemma selectRows_length (st : Store) (a : FindManyArgs) :
  (List.length (selectRows st a) <= Z.abs_nat (fm_take a))%nat.
Proof.
  unfold selectRows.
  destruct (fm_take a <? 0); [rewrite length_rev|]; apply firstn_le_length.
Qed.

(** Paging forwards ([0 <= take]). *)
Lemma selectRows_forward (st : Store) (a : FindManyArgs) :
  0 <= fm_take a ->
  selectRows st a =
  firstn (Z.to_nat (fm_take a))
    (skipn (fm_skip a)
       (fromCursor st (fm_orderBy a) (fm_cursor a)
          (orderRows (fm_orderBy a)
             (filter (evalWhere st (fm_where a)) (items st))))).
Proof.
  intros Htake. unfold selectRows.
  assert (E : (fm_take a <? 0) = false) by (apply Z.ltb_ge; lia).
  rewrite E.
  replace (Z.abs_nat (fm_take a)) with (Z.to_nat (fm_take a)) by lia.
  destruct (fm_orderBy a); reflexivity.
Qed.

Lemma orderRows_sorted (d : SortOrder) (rows : list Item.t) :
  StronglySorted (holds (rows_in_order d)) (orderRows (Some d) rows).
Proof.
  apply sortBy_sorted.
  - intros a b. apply id_le_total.
  - intros a b c. apply id_le_trans.
Qed.

Lemma selectRows_sorted (st : Store) (a : FindManyArgs) (d : SortOrder) :
  0 <= fm_take a ->
  fm_orderBy a = Some d ->
  StronglySorted (holds (rows_in_order d)) (selectRows st a).
Proof.
  intros Htake Hd. rewrite selectRows_forward by assumption. rewrite Hd.
  eapply subseq_StronglySorted; [|apply orderRows_sorted].
  eapply subseq_trans; [apply subseq_firstn|].
  eapply subseq_trans; [apply subseq_skipn|].
  apply fromCursor_subseq.
Qed.

Lemma findMany_ids (st : Store) (a : FindManyArgs) :
  map Fetched.id (findMany st a) = map Item.id (selectRows st a).
Proof. unfold findMany. rewrite map_map. reflexivity. Qed.

Lemma findMany_In (st : Store) (a : FindManyArgs) (r : Fetched.t) :
  In r (findMany st a) ->
  exists i, r = includeRelations st (fm_include a) i /\
            In i (items st) /\ evalWhere st (fm_where a) i = true.
Proof.
  unfold findMany. intros H. apply in_map_iff in H as [i [<- Hi]].
  exists i. split; [reflexivity|]. now apply selectRows_In.
Qed.

Lemma findMany_length (st : Store) (a : FindManyArgs) :
  (List.length (findMany st a) <= Z.abs_nat (fm_take a))%nat.
Proof. unfold findMany. rewrite length_map. apply selectRows_length. Qed.

Lemma StronglySorted_map {A B : Type} (f : A -> B) (R : B -> B -> Prop)
    (l : list A) :
  StronglySorted (fun a b => R (f a) (f b)) l -> StronglySorted R (map f l).
Proof.
  induction 1 as [|x l Hs IH Hall]; simpl; constructor; [assumption|].
  apply Forall_map. exact Hall.
Qed.

Lemma findMany_sorted (st : Store) (a : FindManyArgs) (d : SortOrder) :
  0 <= fm_take a ->
  fm_orderBy a = Some d ->
  StronglySorted (holds (id_le d)) (map Fetched.id (findMany st a)).
Proof.
  intros Htake Hd. rewrite findMany_ids.
  apply StronglySorted_map. now apply selectRows_sorted.
Qed.

(* ================================================================== *)
(** * The handler is the composition of its stages *)
(* ================================================================== *)

Lemma lastOf_app {A : Type} (l : list A) (x : A) : lastOf (l ++ [x]) = Some x.
Proof. unfold lastOf. rewrite map_app. simpl. apply last_last. Qed.

Lemma lastOf_nil {A : Type} : lastOf (@nil A) = None.
Proof. reflexivity. Qed.

Lemma lastOf_map {A B : Type} (f : A -> B) (l : list A) :
  lastOf (map f l) = option_map f (lastOf l).
Proof.
  destruct l as [|x l] using rev_ind; [reflexivity|].
  rewrite map_app. simpl. now rewrite !lastOf_app.
Qed.

Lemma lastOf_Some_app {A : Type} (l : list A) (x : A) :
  lastOf l = Some x -> exists l', l = l' ++ [x].
Proof.
  destruct l as [|y l _] using rev_ind; [discriminate|].
  rewrite lastOf_app. intros [= ->]. now exists l.
Qed.

Lemma lastOf_nonempty {A : Type} (l : list A) :
  l <> [] -> exists x, lastOf l = Some x.
Proof.
  destruct l as [|y l _] using rev_ind; [congruence|].
  intros _. exists y. apply lastOf_app.
Qed.

Lemma getNextPrismaCursor_map {A B : Type} (f : A -> B) (idA : A -> string)
    (idB : B -> string) (page : list A) (amount : Z) :
  (forall a, idB (f a) = idA a) ->
  getNextPrismaCursor idB (map f page) amount = getNextPrismaCursor idA page amount.
Proof.
  intros Hid. unfold getNextPrismaCursor. rewrite length_map.
  destruct (_ =? _); [|reflexivity].
  rewrite lastOf_map. destruct (lastOf page); simpl; [now rewrite Hid | reflexivity].
Qed.

Section Handler.
Context `{Collaborators}.
Variables (ctx : Ctx.t) (input : Input.t) (st : Store).

Lemma getUnreadItems_result :
  result (getUnreadItems ctx input) st =
  {| transformedItems := suppress ctx input (cursorPage ctx input st);
     nextCursor :=
       getNextPrismaCursor FlatItem.id (cursorPage ctx input st)
                           (Input.amount input) |}.
Proof.
  unfold result, getUnreadItems, suppress, cursorPage, viewQuery, viewWhere,
    arrangePage, suppressionFlag.
  destruct (Input.type input) eqn:Et; simpl; try reflexivity.
  (* bookmarks: the cursor is taken from the fetched rows themselves *)
  unfold transformItems.
  rewrite (getNextPrismaCursor_map transformItem Fetched.id FlatItem.id)
    by reflexivity.
  reflexivity.
Qed.

Lemma getUnreadItems_calls :
  calls (getUnreadItems ctx input) st =
  match Input.type input with
  | multiple => [CallGetFolderFeedIds (Input.folder input) (Ctx.user_id ctx)]
  | _ => []
  end ++ [CallFindMany (viewQuery ctx input st)].
Proof.
  unfold calls, getUnreadItems, viewQuery, viewWhere.
  destruct (Input.type input) eqn:Et; simpl; reflexivity.
Qed.

Lemma cursorPage_length :
  (List.length (cursorPage ctx input st) <= Z.abs_nat (Input.amount input))%nat.
Proof.
  unfold cursorPage, transformItems. rewrite length_map.
  eapply Nat.le_trans;
    [|apply (findMany_length st (viewQuery ctx input st))].
  unfold arrangePage.
  destruct (Input.type input); try apply Nat.le_refl.
  - apply subseq_length, subseq_filter.
  - destruct (Input.sort input); try apply Nat.le_refl;
      unfold jsSort; rewrite sortBy_length; apply Nat.le_refl.
Qed.
End Handler.

(* ================================================================== *)
(** * The cursor and the page it is taken from *)
(* ================================================================== *)

Section Cursor.
Context `{Collaborators}.
Variables (ctx : Ctx.t) (input : Input.t) (st : Store).

Lemma getNextPrismaCursor_Some {A : Type} (idOf : A -> string)
    (page : list A) (amount : Z) (c : string) :
  getNextPrismaCursor idOf page amount = Some c <->
  Z.of_nat (List.length page) = amount /\ option_map idOf (lastOf page) = Some c.
Proof.
  unfold getNextPrismaCursor.
  destruct (Z.eqb_spec (Z.of_nat (List.length page)) amount) as [E|E].
  - tauto.
  - split; [discriminate | tauto].
Qed.

Lemma getNextPrismaCursor_short {A : Type} (idOf : A -> string)
    (page : list A) (amount : Z) :
  Z.of_nat (List.length page) <> amount ->
  getNextPrismaCursor idOf page amount = None.
Proof.
  unfold getNextPrismaCursor. intros E.
  destruct (Z.eqb_spec (Z.of_nat (List.length page)) amount); [contradiction | reflexivity].
Qed.

Lemma transformItems_ids (rows : list Fetched.t) :
  map FlatItem.id (transformItems rows) = map Fetched.id rows.
Proof. unfold transformItems. rewrite map_map. reflexivity. Qed.

Lemma arrangePage_fetch_order :
  Input.type input <> recentlyread ->
  forall rows, subseq (arrangePage input rows) rows /\
               (Input.type input <> all -> arrangePage input rows = rows).
Proof.
  intros Hrr rows. unfold arrangePage.
  destruct (Input.type input); try contradiction;
    (split; [try apply subseq_refl; apply subseq_filter | intros Hall; congruence]).
Qed.
End Cursor.

(** C1, on a failing input. The recently-read view over [readStore], two
    items a page, sort [Oldest], whatever the duplicate suppressor: the
    fetch is "2", "1" (ids descending), the page is re-sorted by read time
    to "1", "2", and the cursor is taken from the re-sorted page. It is "2",
    the last item shown, and not "1", the last item fetched, which is where
    the fetch order would resume. The request that carries this cursor
    fetches "1" a second time. *)
Theorem recentlyread_cursor_taken_after_sort (C : Collaborators) :
  let input := request 2 Oldest recentlyread None in
  let fetched := fun i : Input.t =>
    map Fetched.id
        (findMany readStore (sharedQuery sampleCtx i (whereRecentlyRead sampleCtx))) in
  let r := result (getUnreadItems sampleCtx input) readStore in
  let next := withCursor input (nextCursor r) in
  fetched input = ["2"; "1"]%string /\
  (exists page : list FlatItem.t,
     map FlatItem.id page = ["1"; "2"]%string /\
     transformedItems r = removeDuplicates page (Ctx.user_id sampleCtx) false) /\
  nextCursor r = Some "2"%string /\
  nextCursor r <> lastOf (fetched input) /\
  calls (getUnreadItems sampleCtx next) readStore =
    [CallFindMany (sharedQuery sampleCtx next (whereRecentlyRead sampleCtx))] /\
  fetched next = ["1"; "0"]%string.
Proof.
  intros input fetched r next.
  split; [reflexivity|].
  split.
  { subst r. rewrite getUnreadItems_result.
    exists (cursorPage sampleCtx input readStore). split; reflexivity. }
  split; [reflexivity|].
  split; [vm_compute; discriminate|].
  split; reflexivity.
Qed.

(* ================================================================== *)
(** * Which views suppress duplicates *)
(* ================================================================== *)

(** C3 (amended). The page handed to the client is the duplicate-suppressed
    projection of the fetched rows for the views all, one and multiple
    (flag [true]) and recentlyread and discover (flag [false]); the
    bookmarks and newsletters views hand out the projection as it is. *)
Theorem suppression_by_view `{Collaborators} (ctx : Ctx.t) (input : Input.t)
    (st : Store) :
  let r := result (getUnreadItems ctx input) st in
  exists q : FindManyArgs,
    In (CallFindMany q) (calls (getUnreadItems ctx input) st) /\
    let page := transformItems (arrangePage input (findMany st q)) in
    match Input.type input with
    | all | one | multiple =>
        transformedItems r = removeDuplicates page (Ctx.user_id ctx) true
    | recentlyread | discover =>
        transformedItems r = removeDuplicates page (Ctx.user_id ctx) false
    | bookmarks | newsletters =>
        transformedItems r = page
    end.
Proof.
  intros r. exists (viewQuery ctx input st).
  subst r. rewrite getUnreadItems_result, getUnreadItems_calls.
  split; [apply in_or_app; right; now left|].
  simpl. unfold suppress, suppressionFlag, cursorPage.
  destruct (Input.type input); reflexivity.
Qed.

(** C3 as stated fails for bookmarks: over [dupStore] the bookmarks page
    comes back with both "Release notes", which is not what the suppressor
    makes of the projected page, whatever the flag. *)
Lemma bookmarks_page_is_not_suppressed :
  let C := sampleCollaborators [] in
  let input := request 2 Latest bookmarks None in
  let r := result (getUnreadItems sampleCtx input) dupStore in
  ~ exists flag,
      transformedItems r =
      removeDuplicates
        (transformItems
           (findMany dupStore (sharedQuery sampleCtx input (whereBookmarks sampleCtx))))
        (Ctx.user_id sampleCtx) flag.
Proof.
  intros C input r [flag Hflag].
  apply (f_equal (@List.length _)) in Hflag.
  destruct flag; vm_compute in Hflag; discriminate.
Qed.

(* ================================================================== *)
(** * The recently-read view *)
(* ================================================================== *)

Lemma StronglySorted_snoc {A : Type} (R : A -> A -> Prop) (l : list A) (x : A) :
  StronglySorted R l -> Forall (fun y => R y x) l -> StronglySorted R (l ++ [x]).
Proof.
  induction 1 as [|y l Hs IH Hall]; intros Hx; simpl.
  - repeat constructor.
  - inversion Hx; subst. constructor; [auto|].
    apply Forall_app. split; [assumption | now constructor].
Qed.

Lemma StronglySorted_rev {A : Type} (R : A -> A -> Prop) (l : list A) :
  StronglySorted R l -> StronglySorted (fun a b => R b a) (rev l).
Proof.
  induction 1 as [|x l Hs IH Hall]; simpl; [constructor|].
  apply StronglySorted_snoc; [exact IH|].
  apply Forall_rev. exact Hall.
Qed.

Lemma rows_in_order_flip (d : SortOrder) (a b : Item.t) :
  rows_in_order (flipOrder d) a b = rows_in_order d b a.
Proof. destruct d; reflexivity. Qed.

Lemma StronglySorted_weaken {A : Type} (R R' : A -> A -> Prop) (l : list A) :
  (forall a b, R a b -> R' a b) -> StronglySorted R l -> StronglySorted R' l.
Proof.
  intros Himp. induction 1 as [|x l Hs IH Hall]; constructor; [assumption|].
  eapply Forall_impl; [|exact Hall]. intros y. apply Himp.
Qed.

(** Whatever the sign of [take], the page comes back in the requested
    ordering. *)
Lemma selectRows_sorted_any (st : Store) (a : FindManyArgs) (d : SortOrder) :
  fm_orderBy a = Some d ->
  StronglySorted (holds (rows_in_order d)) (selectRows st a).
Proof.
  intros Hd.
  destruct (Z.ltb_spec (fm_take a) 0) as [Hneg|Hpos];
    [|now apply selectRows_sorted].
  unfold selectRows. rewrite Hd.
  assert (E : (fm_take a <? 0) = true) by (apply Z.ltb_lt; exact Hneg).
  rewrite E. simpl option_map. cbv iota.
  eapply StronglySorted_weaken;
    [|apply StronglySorted_rev
        with (R := holds (rows_in_order (flipOrder d)))].
  - intros x y Hxy. unfold holds in *. now rewrite rows_in_order_flip in Hxy.
  - eapply subseq_StronglySorted; [|apply orderRows_sorted].
    eapply subseq_trans; [apply subseq_firstn|].
    eapply subseq_trans; [apply subseq_skipn|].
    apply fromCursor_subseq.
Qed.

Lemma findMany_sorted_any (st : Store) (a : FindManyArgs) (d : SortOrder) :
  fm_orderBy a = Some d ->
  StronglySorted (holds (id_le d)) (map Fetched.id (findMany st a)).
Proof.
  intros Hd. rewrite findMany_ids.
  apply StronglySorted_map. now apply selectRows_sorted_any.
Qed.

Section SortExt.
Context {A : Type} (le le' : A -> A -> bool).

Lemma insertBy_ext (x : A) (l : list A) :
  (forall y, In y l -> le x y = le' x y) ->
  insertBy le x l = insertBy le' x l.
Proof.
  induction l as [|y l IH]; intros Hagree; simpl; [reflexivity|].
  rewrite <- (Hagree y) by now left.
  rewrite IH; [reflexivity|]. intros z Hz. apply Hagree. now right.
Qed.

Lemma sortBy_ext (l : list A) :
  (forall a b, In a l -> In b l -> le a b = le' a b) ->
  sortBy le l = sortBy le' l.
Proof.
  induction l as [|x l IH]; intros Hagree; simpl; [reflexivity|].
  rewrite IH.
  - apply insertBy_ext. intros y Hy. apply Hagree.
    + left. reflexivity.
    + right. apply (proj1 (sortBy_In le' y l)). exact Hy.
  - intros a b Ha Hb. apply Hagree; right; assumption.
Qed.
End SortExt.

(** The read time the in-memory sort looks at is the one the projected item
    carries, as soon as the row has a state row. *)
Lemma readTimeNumber_Fin (r : Fetched.t) :
  (exists s rest, Fetched.user_items r = Some (s :: rest)) ->
  readTimeNumber r = Fin (readTime (transformItem r)).
Proof.
  intros [s [rest Hs]]. unfold readTimeNumber, readTime, transformItem.
  rewrite Hs. simpl. destruct (UserItem.marked_read_time s); reflexivity.
Qed.

Lemma existsb_nonempty {A : Type} (p : A -> bool) (l : list A) :
  existsb p l = true -> exists x rest, l = x :: rest.
Proof. destruct l as [|x rest]; [discriminate | eauto]. Qed.

Section RecentlyRead.
Context `{Collaborators}.
Variables (ctx : Ctx.t) (input : Input.t) (st : Store).
Hypothesis Htype : Input.type input = recentlyread.

Lemma recentlyread_query :
  viewQuery ctx input st = sharedQuery ctx input (whereRecentlyRead ctx) /\
  fm_orderBy (viewQuery ctx input st) = Some desc /\
  inc_user_items (fm_include (viewQuery ctx input st)) = true.
Proof.
  unfold viewQuery, viewWhere, sharedQuery. rewrite Htype. simpl. auto.
Qed.

Lemma recentlyread_rows_have_state (r : Fetched.t) :
  In r (findMany st (viewQuery ctx input st)) ->
  exists s rest, Fetched.user_items r = Some (s :: rest).
Proof.
  intros Hr. apply findMany_In in Hr as [i [-> [_ Hw]]].
  destruct recentlyread_query as [Hq [_ Hinc]].
  unfold includeRelations. cbn [Fetched.user_items]. rewrite Hinc.
  rewrite Hq in Hw. unfold evalWhere, whereRecentlyRead in Hw. simpl in Hw.
  unfold evalUserItemsWhere in Hw. simpl in Hw.
  rewrite !andb_true_r in Hw. apply andb_prop in Hw as [Hsome _].
  apply existsb_nonempty in Hsome as [s [rest ->]]. eauto.
Qed.

Let key (r : Fetched.t) : Z := readTime (transformItem r).

Lemma jsSort_byReadTimeDesc :
  jsSort byReadTimeDesc (findMany st (viewQuery ctx input st)) =
  sortBy (fun a b => key b <=? key a) (findMany st (viewQuery ctx input st)).
Proof.
  unfold jsSort. apply sortBy_ext. intros a b Ha Hb.
  unfold byReadTimeDesc.
  rewrite !readTimeNumber_Fin by now apply recentlyread_rows_have_state.
  simpl. fold (key a) (key b).
  destruct (Z.leb_spec (key b - key a) 0), (Z.leb_spec (key b) (key a));
    try reflexivity; lia.
Qed.

Lemma jsSort_byReadTimeAsc :
  jsSort byReadTimeAsc (findMany st (viewQuery ctx input st)) =
  sortBy (fun a b => key a <=? key b) (findMany st (viewQuery ctx input st)).
Proof.
  unfold jsSort. apply sortBy_ext. intros a b Ha Hb.
  unfold byReadTimeAsc.
  rewrite !readTimeNumber_Fin by now apply recentlyread_rows_have_state.
  simpl. fold (key a) (key b).
  destruct (Z.leb_spec (key a - key b) 0), (Z.leb_spec (key a) (key b));
    try reflexivity; lia.
Qed.

Lemma arrangePage_recentlyread_perm (rows : list Fetched.t) :
  Permutation (arrangePage input rows) rows.
Proof.
  unfold arrangePage. rewrite Htype.
  destruct (Input.sort input); try apply Permutation_refl;
    unfold jsSort; apply sortBy_perm.
Qed.

Lemma recentlyread_latest_sorted :
  Input.sort input = Latest ->
  StronglySorted (fun a b => readTime b <= readTime a) (cursorPage ctx input st).
Proof.
  intros Hsort. unfold cursorPage, arrangePage, transformItems.
  rewrite Htype, Hsort, jsSort_byReadTimeDesc.
  apply StronglySorted_map.
  eapply StronglySorted_weaken;
    [|apply (sortBy_sorted (fun a b => key b <=? key a))].
  - intros a b Hab. unfold holds in Hab. apply Z.leb_le in Hab. exact Hab.
  - intros a b. destruct (Z.leb_spec (key b) (key a)); [now left|].
    right. apply Z.leb_le. lia.
  - intros a b c Hab Hbc. apply Z.leb_le in Hab, Hbc. apply Z.leb_le. lia.
Qed.

Lemma recentlyread_oldest_sorted :
  Input.sort input = Oldest ->
  StronglySorted (fun a b => readTime a <= readTime b) (cursorPage ctx input st).
Proof.
  intros Hsort. unfold cursorPage, arrangePage, transformItems.
  rewrite Htype, Hsort, jsSort_byReadTimeAsc.
  apply StronglySorted_map.
  eapply StronglySorted_weaken;
    [|apply (sortBy_sorted (fun a b => key a <=? key b))].
  - intros a b Hab. unfold holds in Hab. apply Z.leb_le in Hab. exact Hab.
  - intros a b. destruct (Z.leb_spec (key a) (key b)); [now left|].
    right. apply Z.leb_le. lia.
  - intros a b c Hab Hbc. apply Z.leb_le in Hab, Hbc. apply Z.leb_le. lia.
Qed.
End RecentlyRead.

(** C4. For every recentlyread request the one query sent to the store asks
    for ids in descending order, whatever the requested sort, and the rows
    come back so ordered; the page handed to the client is made of the
    fetched rows re-sorted by read time and then projected and
    duplicate-suppressed, and it is ordered by read time: latest first for
    [Latest], oldest first for [Oldest]. *)
Theorem recentlyread_fetch_and_display_order `{Collaborators}
    (ctx : Ctx.t) (input : Input.t) (st : Store) :
  suppresses_within_page ->
  Input.type input = recentlyread ->
  let r := result (getUnreadItems ctx input) st in
  exists q : FindManyArgs,
    calls (getUnreadItems ctx input) st = [CallFindMany q] /\
    fm_orderBy q = Some desc /\
    StronglySorted (holds (id_le desc)) (map Fetched.id (findMany st q)) /\
    exists resorted : list Fetched.t,
      Permutation resorted (findMany st q) /\
      transformedItems r =
        removeDuplicates (transformItems resorted) (Ctx.user_id ctx) false /\
      (Input.sort input = Latest ->
       StronglySorted (fun a b => readTime b <= readTime a) (transformItems resorted) /\
       StronglySorted (fun a b => readTime b <= readTime a) (transformedItems r)) /\
      (Input.sort input = Oldest ->
       StronglySorted (fun a b => readTime a <= readTime b) (transformItems resorted) /\
       StronglySorted (fun a b => readTime a <= readTime b) (transformedItems r)).
Proof.
  intros Hsub Htype r.
  exists (viewQuery ctx input st).
  destruct (recentlyread_query ctx input st Htype) as [_ [Horder _]].
  subst r. rewrite getUnreadItems_result, getUnreadItems_calls, Htype. simpl.
  split; [reflexivity|].
  split; [exact Horder|].
  split; [now apply findMany_sorted_any|].
  exists (arrangePage input (findMany st (viewQuery ctx input st))).
  split; [now apply arrangePage_recentlyread_perm|].
  unfold suppress, suppressionFlag. rewrite Htype.
  split; [reflexivity|].
  split; intros Hsort.
  - pose proof (recentlyread_latest_sorted ctx input st Htype Hsort) as Hs.
    split; [exact Hs|].
    eapply subseq_StronglySorted; [apply Hsub | exact Hs].
  - pose proof (recentlyread_oldest_sorted ctx input st Htype Hsort) as Hs.
    split; [exact Hs|].
    eapply subseq_StronglySorted; [apply Hsub | exact Hs].
Qed.

Lemma keepFirstBy_subseq {A : Type} (key : A -> string) (seen : list string)
    (l : list A) :
  subseq (keepFirstBy key seen l) l.
Proof.
  revert seen. induction l as [|x l IH]; intros seen; simpl; [constructor|].
  destruct (existsb _ seen); constructor; apply IH.
Qed.

Lemma sample_suppresses_within_page (table : list (string * list string)) :
  @suppresses_within_page (sampleCollaborators table).
Proof. intros page user flag. apply keepFirstBy_subseq. Qed.

(** Witness for C4, on the scenario of the design: the page fetched by id
    descending is ["2" (read at 3000); "1" (read at 1000)]; with [Oldest] it
    comes back as ["1"; "2"]. *)
Lemma recentlyread_fetch_and_display_order_witness :
  let C := sampleCollaborators [] in
  let input := request 2 Oldest recentlyread None in
  let r := result (getUnreadItems sampleCtx input) readStore in
  suppresses_within_page /\
  Input.type input = recentlyread /\
  map FlatItem.id (transformedItems r) = ["1"; "2"]%string /\
  StronglySorted (fun a b => readTime a <= readTime b) (transformedItems r).
Proof.
  intros C input r.
  pose proof (@recentlyread_fetch_and_display_order C sampleCtx input readStore
                (sample_suppresses_within_page []) eq_refl) as W.
  destruct W as [q [_ [_ [_ [resorted [_ [_ [_ Hold]]]]]]]].
  split; [apply sample_suppresses_within_page|].
  split; [reflexivity|].
  split; [reflexivity|].
  apply Hold. reflexivity.
Defined.

(* ================================================================== *)
(** * Requests that lack a parameter of their view *)
(* ================================================================== *)

(** C5 (amended). A request that lacks the parameter of its view is not
    refused by the handler. For "one" and "discover" without [feed_id] the
    only store call is the [findMany] query, sent with no [feed_id]
    condition, and the page handed out is the duplicate-suppressed
    projection of the rows of that query. For "multiple" without [folder]
    the handler makes no check of its own either: the first thing it does is
    to call the folder resolver with the absent folder. *)
Theorem missing_parameter_reaches_the_store `{Collaborators}
    (ctx : Ctx.t) (input : Input.t) (st : Store) :
  missing_required_parameter input ->
  (Input.type input <> multiple ->
   exists q : FindManyArgs,
     calls (getUnreadItems ctx input) st = [CallFindMany q] /\
     w_feed_id (fm_where q) = None /\
     transformedItems (result (getUnreadItems ctx input) st) =
       removeDuplicates (transformItems (findMany st q)) (Ctx.user_id ctx)
         (match Input.type input with discover => false | _ => true end)) /\
  (Input.type input = multiple ->
   exists rest : list StoreCall,
     calls (getUnreadItems ctx input) st =
     CallGetFolderFeedIds None (Ctx.user_id ctx) :: rest).
Proof.
  intros Hmissing.
  rewrite getUnreadItems_result, getUnreadItems_calls.
  assert (Hpage : Input.type input <> all -> Input.type input <> recentlyread ->
                  cursorPage ctx input st =
                  transformItems (findMany st (viewQuery ctx input st))).
  { intros Hall Hrr. unfold cursorPage, arrangePage.
    destruct (Input.type input); congruence. }
  cbn [transformedItems]. unfold suppress, suppressionFlag.
  destruct Hmissing as [[[Ht | Ht] Hfeed] | [Ht Hfolder]].
  - split; [intros _ | intros Hm; congruence].
    exists (viewQuery ctx input st).
    rewrite Hpage by congruence. unfold viewQuery, viewWhere.
    rewrite Ht, Hfeed. repeat split.
  - split; [intros _ | intros Hm; congruence].
    exists (viewQuery ctx input st).
    rewrite Hpage by congruence. unfold viewQuery, viewWhere.
    rewrite Ht. unfold whereDiscover. rewrite Hfeed. repeat split.
  - split; [intros Hm; now elim Hm | intros _].
    rewrite Ht, Hfolder. eexists. reflexivity.
Qed.

(** Witness for C5 (amended): "one" without [feed_id] over [twoFeedStore]
    returns the items of both feeds. *)
Lemma missing_parameter_reaches_the_store_witness :
  let C := sampleCollaborators [] in
  let input := request 5 Latest one None in
  missing_required_parameter input /\
  exists q : FindManyArgs,
    calls (getUnreadItems sampleCtx input) twoFeedStore = [CallFindMany q] /\
    w_feed_id (fm_where q) = None /\
    map FlatItem.id
        (transformedItems (result (getUnreadItems sampleCtx input) twoFeedStore))
    = ["2"; "1"]%string.
Proof.
  intros C input.
  assert (Hmissing : missing_required_parameter input)
    by (left; split; [left|]; reflexivity).
  split; [exact Hmissing|].
  destruct (@missing_parameter_reaches_the_store C sampleCtx input twoFeedStore
              Hmissing) as [Hone _].
  destruct Hone as (q & Hcalls & Hfeed & _); [discriminate|].
  exists q. split; [exact Hcalls|]. split; [exact Hfeed | reflexivity].
Defined.

(** C5 as stated fails: a "one" request without [feed_id] is answered with
    a store call, not refused before any. *)
Lemma missing_feed_id_is_not_refused :
  let C := sampleCollaborators [] in
  let input := request 5 Latest one None in
  ~ (missing_required_parameter input ->
     calls (getUnreadItems sampleCtx input) twoFeedStore = []).
Proof.
  intros C input Hclaim.
  assert (Hmissing : missing_required_parameter input)
    by (left; split; [left|]; reflexivity).
  specialize (Hclaim Hmissing). vm_compute in Hclaim. discriminate.
Qed.

(* ================================================================== *)
(** * What a returned item says about the store *)
(* ================================================================== *)

Lemma NoDup_map_inj {A B : Type} (f : A -> B) (l : list A) (a b : A) :
  NoDup (map f l) -> In a l -> In b l -> f a = f b -> a = b.
Proof.
  induction l as [|x l IH]; simpl; intros Hnd Ha Hb Hf; [contradiction|].
  inversion Hnd as [|? ? Hnot Hnd']; subst.
  destruct Ha as [<- | Ha], Hb as [<- | Hb]; auto.
  - exfalso. apply Hnot. rewrite Hf. now apply in_map.
  - exfalso. apply Hnot. rewrite <- Hf. now apply in_map.
Qed.

Lemma arrangePage_In (input : Input.t) (rows : list Fetched.t) (x : Fetched.t) :
  In x (arrangePage input rows) -> In x rows.
Proof.
  unfold arrangePage.
  destruct (Input.type input); auto.
  - intros Hx. apply filter_In in Hx. tauto.
  - destruct (Input.sort input); auto; unfold jsSort; apply sortBy_In.
Qed.

Section Returned.
Context `{Collaborators}.
Variables (ctx : Ctx.t) (input : Input.t) (st : Store).

(** Every item of the page the cursor is taken from projects a row of the
    store that satisfies the view's [where]. *)
Lemma cursorPage_In (t : FlatItem.t) :
  In t (cursorPage ctx input st) ->
  exists i x,
    In i (items st) /\
    evalWhere st (viewWhere ctx input st) i = true /\
    x = includeRelations st (fm_include (viewQuery ctx input st)) i /\
    In x (arrangePage input (findMany st (viewQuery ctx input st))) /\
    t = transformItem x.
Proof.
  unfold cursorPage, transformItems. intros Ht.
  apply in_map_iff in Ht as [x [<- Hx]].
  pose proof (arrangePage_In _ _ _ Hx) as Hfetched.
  apply findMany_In in Hfetched as [i [Hxi [Hi Hw]]].
  exists i, x. repeat split; assumption.
Qed.

Lemma returned_In (t : FlatItem.t) :
  suppresses_within_page \/ suppressionFlag (Input.type input) = None ->
  In t (transformedItems (result (getUnreadItems ctx input) st)) ->
  In t (cursorPage ctx input st).
Proof.
  rewrite getUnreadItems_result. cbn [transformedItems]. unfold suppress.
  intros [Hsub | Hnone].
  - destruct (suppressionFlag _); [|auto].
    intros Ht. eapply subseq_In; [apply Hsub | exact Ht].
  - rewrite Hnone. auto.
Qed.

(** With ids a primary key, a row whose id is on the page is itself a row
    that satisfies the view's [where]. *)
Lemma cursorPage_id (i : Item.t) :
  unique_item_ids st ->
  In i (items st) ->
  In (Item.id i) (map FlatItem.id (cursorPage ctx input st)) ->
  evalWhere st (viewWhere ctx input st) i = true.
Proof.
  intros Huniq Hi Hid.
  apply in_map_iff in Hid as [t [Htid Ht]].
  apply cursorPage_In in Ht as [i' [x [Hi' [Hw [-> [_ ->]]]]]].
  simpl in Htid.
  assert (i' = i) by (eapply NoDup_map_inj; eauto).
  now subst.
Qed.
End Returned.

(* ================================================================== *)
(** * The "all" view and the subscription window *)
(* ================================================================== *)

Lemma afterPaginationStart_subscribed (st : Store) (u : string) (i : Item.t)
    (inc : ItemInclude) :
  inc_feed_users_of inc = Some u ->
  afterPaginationStart (includeRelations st inc i) = true ->
  exists f s,
    feedOf st i = Some f /\
    In s (Feed.users f) /\
    UserFeed.user_id s = u /\
    UserFeed.pagination_start_timestamp s <= Item.created_at i /\
    forall s', In s' (Feed.users f) -> UserFeed.user_id s' = u ->
               NoDup (map UserFeed.user_id (Feed.users f)) -> s' = s.
Proof.
  intros Hinc. unfold afterPaginationStart, includeRelations. simpl.
  destruct (feedOf st i) as [f|]; [|discriminate]. simpl. rewrite Hinc.
  destruct (filter _ (Feed.users f)) as [|s rest] eqn:Hf; [discriminate|].
  intros Hle. apply Z.leb_le in Hle.
  assert (Hs : In s (filter (fun s => String.eqb (UserFeed.user_id s) u) (Feed.users f)))
    by (rewrite Hf; now left).
  apply filter_In in Hs as [Hs Hu]. apply String.eqb_eq in Hu.
  exists f, s. repeat split; try assumption.
  intros s' Hs' Hu' Hnd.
  eapply NoDup_map_inj; eauto. congruence.
Qed.

(** C6. In the "all" view every returned item was created no earlier than
    the pagination start of the requesting user's subscription to the
    item's feed; the returned page is drawn from the fetched rows that pass
    that check, the others being dropped after the fetch. *)
Theorem all_view_respects_pagination_start `{Collaborators}
    (ctx : Ctx.t) (input : Input.t) (st : Store) :
  suppresses_within_page ->
  unique_subscriptions st ->
  Input.type input = all ->
  let r := result (getUnreadItems ctx input) st in
  (forall t, In t (transformedItems r) ->
     exists i f,
       In i (items st) /\
       FlatItem.id t = Item.id i /\
       FlatItem.created_at t = Item.created_at i /\
       feedOf st i = Some f /\
       (exists s, In s (Feed.users f) /\ UserFeed.user_id s = Ctx.user_id ctx) /\
       (forall s, In s (Feed.users f) ->
                  UserFeed.user_id s = Ctx.user_id ctx ->
                  UserFeed.pagination_start_timestamp s <= FlatItem.created_at t)) /\
  (exists q : FindManyArgs,
     calls (getUnreadItems ctx input) st = [CallFindMany q] /\
     subseq (transformedItems r)
            (transformItems (filter afterPaginationStart (findMany st q)))).
Proof.
  intros Hsub Huniq Htype r. subst r. split.
  - intros t Ht.
    apply returned_In in Ht; [|now left].
    apply cursorPage_In in Ht as [i [x [Hi [_ [Hx [Hpage ->]]]]]].
    unfold arrangePage in Hpage. rewrite Htype in Hpage.
    apply filter_In in Hpage as [_ Hafter]. rewrite Hx in Hafter.
    apply afterPaginationStart_subscribed with (u := Ctx.user_id ctx) in Hafter;
      [|reflexivity].
    destruct Hafter as [f [s [Hfeed [Hs [Hu [Hle Honly]]]]]].
    exists i, f. rewrite Hx. simpl.
    repeat split; try assumption.
    + exists s. now split.
    + intros s' Hs' Hu'.
      assert (s' = s).
      { apply Honly; try assumption. apply Huniq.
        unfold feedOf, findFeed in Hfeed.
        destruct (Item.feed_id i); [|discriminate].
        now apply find_some in Hfeed. }
      now subst.
  - exists (viewQuery ctx input st).
    rewrite getUnreadItems_calls, getUnreadItems_result, Htype.
    split; [reflexivity|].
    cbn [transformedItems]. unfold suppress, suppressionFlag, cursorPage, arrangePage.
    rewrite Htype. apply Hsub.
Qed.

Lemma sample_unique_subscriptions : unique_subscriptions backlogStore.
Proof.
  intros f [<- | []]. simpl. constructor; [intros [] | constructor].
Qed.

(** Witness for C6: the "all" view over [backlogStore] fetches "3" and "2"
    and returns "2" alone, item "3" predating the subscription. *)
Lemma all_view_respects_pagination_start_witness :
  let C := sampleCollaborators [] in
  let input := request 2 Latest all None in
  let r := result (getUnreadItems sampleCtx input) backlogStore in
  suppresses_within_page /\
  unique_subscriptions backlogStore /\
  Input.type input = all /\
  map FlatItem.id (transformedItems r) = ["2"]%string /\
  forall t, In t (transformedItems r) ->
    exists i f,
      In i (items backlogStore) /\
      FlatItem.id t = Item.id i /\
      feedOf backlogStore i = Some f /\
      forall s, In s (Feed.users f) ->
                UserFeed.user_id s = "u1"%string ->
                UserFeed.pagination_start_timestamp s <= FlatItem.created_at t.
Proof.
  intros C input r.
  pose proof (@all_view_respects_pagination_start C sampleCtx input backlogStore
                (sample_suppresses_within_page []) sample_unique_subscriptions
                eq_refl) as [W _].
  split; [apply sample_suppresses_within_page|].
  split; [apply sample_unique_subscriptions|].
  split; [reflexivity|].
  split; [reflexivity|].
  intros t Ht. destruct (W t Ht) as [i [f [Hi [Hid [_ [Hfeed [_ Hall]]]]]]].
  exists i, f. auto.
Defined.

(* ================================================================== *)
(** * The bookmarks view *)
(* ================================================================== *)

Section Bookmarks.
Context `{Collaborators}.
Variables (ctx : Ctx.t) (input : Input.t) (st : Store).
Hypothesis Htype : Input.type input = bookmarks.

Lemma bookmarks_where (i : Item.t) :
  evalWhere st (viewWhere ctx input st) i = true <->
  (exists s, In s (Item.user_items i) /\
             (UserItem.in_read_later s = true \/
              exists l, In l (UserItem.bookmark_folders s) /\
                        BookmarkLink.user_id l = Ctx.user_id ctx)) /\
  (forall s, In s (Item.user_items i) -> UserItem.user_id s = Ctx.user_id ctx).
Proof.
  unfold viewWhere. rewrite Htype.
  unfold evalWhere, whereBookmarks, evalUserItemsWhere. simpl.
  rewrite andb_true_r, andb_true_iff, existsb_exists, forallb_forall.
  split; intros [Hsome Hevery]; split.
  - destruct Hsome as [s [Hs Hor]]. exists s. split; [exact Hs|].
    apply orb_true_iff in Hor as [Hlater | Hfolder].
    + left. now apply Bool.eqb_prop in Hlater.
    + right. apply existsb_exists in Hfolder as [l [Hl Hu]].
      exists l. split; [exact Hl | now apply String.eqb_eq].
  - intros s Hs. apply String.eqb_eq. now apply Hevery.
  - destruct Hsome as [s [Hs Hor]]. exists s. split; [exact Hs|].
    apply orb_true_iff. destruct Hor as [Hlater | [l [Hl Hu]]].
    + left. rewrite Hlater. reflexivity.
    + right. apply existsb_exists. exists l. split; [exact Hl | now apply String.eqb_eq].
  - intros s Hs. apply String.eqb_eq. now apply Hevery.
Qed.
End Bookmarks.

(** C7. In the bookmarks view every returned item has a state row of the
    requesting user that is saved for later or carries a bookmark-folder
    link of that user, and all of the item's state rows are that user's: no
    item is returned on the strength of another user's state. *)
Theorem bookmarks_only_own_saved_items `{Collaborators}
    (ctx : Ctx.t) (input : Input.t) (st : Store) :
  Input.type input = bookmarks ->
  forall t, In t (transformedItems (result (getUnreadItems ctx input) st)) ->
    exists i,
      In i (items st) /\
      FlatItem.id t = Item.id i /\
      (exists s, In s (Item.user_items i) /\
                 UserItem.user_id s = Ctx.user_id ctx /\
                 (UserItem.in_read_later s = true \/
                  exists l, In l (UserItem.bookmark_folders s) /\
                            BookmarkLink.user_id l = Ctx.user_id ctx)) /\
      (forall s, In s (Item.user_items i) ->
                 UserItem.user_id s = Ctx.user_id ctx).
Proof.
  intros Htype t Ht.
  apply returned_In in Ht; [|right; now rewrite Htype].
  apply cursorPage_In in Ht as [i [x [Hi [Hw [Hx [_ ->]]]]]].
  apply (bookmarks_where ctx input st Htype) in Hw as [[s [Hs Hsaved]] Hown].
  exists i. rewrite Hx. simpl.
  repeat split; try assumption.
  exists s. repeat split; auto.
Qed.

(** Witness for C7: the bookmarks of [u1] over [sharedStore] are "4" (filed
    in a folder, not saved for later) and "1". *)
Lemma bookmarks_only_own_saved_items_witness :
  let C := sampleCollaborators [] in
  let input := request 5 Latest bookmarks None in
  let r := result (getUnreadItems sampleCtx input) sharedStore in
  Input.type input = bookmarks /\
  map FlatItem.id (transformedItems r) = ["4"; "1"]%string /\
  forall t, In t (transformedItems r) ->
    exists i, In i (items sharedStore) /\ FlatItem.id t = Item.id i /\
              forall s, In s (Item.user_items i) -> UserItem.user_id s = "u1"%string.
Proof.
  intros C input r.
  split; [reflexivity|]. split; [reflexivity|].
  intros t Ht.
  destruct (@bookmarks_only_own_saved_items C sampleCtx input sharedStore
              eq_refl t Ht) as [i [Hi [Hid [_ Hown]]]].
  exists i. auto.
Defined.

(** C10. In the bookmarks view an item with a state row of another user is
    not returned, whatever the requesting user's own row says: the [every]
    condition ranges over all state rows of the item. *)
Theorem bookmarks_exclude_items_with_foreign_state `{Collaborators}
    (ctx : Ctx.t) (input : Input.t) (st : Store) :
  unique_item_ids st ->
  Input.type input = bookmarks ->
  forall i,
    In i (items st) ->
    (exists s, In s (Item.user_items i) /\ UserItem.user_id s <> Ctx.user_id ctx) ->
    ~ In (Item.id i)
         (map FlatItem.id (transformedItems (result (getUnreadItems ctx input) st))).
Proof.
  intros Huniq Htype i Hi [s [Hs Hforeign]] Hin.
  assert (Hpage : In (Item.id i) (map FlatItem.id (cursorPage ctx input st))).
  { apply in_map_iff in Hin as [t [Hid Ht]].
    apply in_map_iff. exists t. split; [exact Hid|].
    apply returned_In; [right; now rewrite Htype | exact Ht]. }
  apply cursorPage_id in Hpage; try assumption.
  apply (bookmarks_where ctx input st Htype) in Hpage as [_ Hown].
  apply Hforeign. now apply Hown.
Qed.

Lemma sample_unique_item_ids : unique_item_ids sharedStore.
Proof.
  unfold unique_item_ids. simpl.
  repeat constructor; simpl; intuition discriminate.
Qed.

(** Witness for C10: item "2" of [sharedStore] is saved by [u1] and also by
    [u2]; it is not among [u1]'s bookmarks. *)
Lemma bookmarks_exclude_items_with_foreign_state_witness :
  let C := sampleCollaborators [] in
  let input := request 5 Latest bookmarks None in
  let ours := article "2" "Ours" 2100 "f1" [savedBy "u1"; savedBy "u2"] in
  unique_item_ids sharedStore /\
  Input.type input = bookmarks /\
  In ours (items sharedStore) /\
  In (savedBy "u1") (Item.user_items ours) /\
  ~ In (Item.id ours)
       (map FlatItem.id
            (transformedItems (result (getUnreadItems sampleCtx input) sharedStore))).
Proof.
  intros C input ours.
  split; [apply sample_unique_item_ids|].
  split; [reflexivity|].
  split; [right; left; reflexivity|].
  split; [left; reflexivity|].
  apply (@bookmarks_exclude_items_with_foreign_state C sampleCtx input sharedStore
           sample_unique_item_ids eq_refl ours).
  - right; left; reflexivity.
  - exists (savedBy "u2"). split; [right; left; reflexivity | discriminate].
Defined.

(* ================================================================== *)
(** * The pattern behind [contains] *)
(* ================================================================== *)

Lemma like_percent (p s : string) :
  like (String percent p) s =
  (like p s ||
   match s with
   | EmptyString => false
   | String _ s' => like (String percent p) s'
   end)%bool.
Proof. destruct s; reflexivity. Qed.

Lemma like_plain (c : ascii) (p s : string) :
  plainChar c = true ->
  like (String c p) s =
  match s with
  | EmptyString => false
  | String y s' => (Ascii.eqb c y && like p s')%bool
  end.
Proof.
  unfold plainChar. intros H.
  apply negb_true_iff in H. apply orb_false_iff in H. destruct H as [H H3].
  apply orb_false_iff in H. destruct H as [H1 H2].
  cbn [like]. rewrite H1, H2, H3. reflexivity.
Qed.

Lemma like_any (s : string) : like (String percent EmptyString) s = true.
Proof.
  induction s as [|c s IH]; [reflexivity|].
  rewrite like_percent, IH. apply orb_true_r.
Qed.

Lemma prefix_cons (c y : ascii) (q s : string) :
  String.prefix (String c q) (String y s) = (Ascii.eqb c y && String.prefix q s)%bool.
Proof.
  cbn [String.prefix]. destruct (ascii_dec c y) as [->|Hne].
  - now rewrite Ascii.eqb_refl.
  - apply Ascii.eqb_neq in Hne. now rewrite Hne.
Qed.

Lemma like_plain_prefix (q s : string) :
  plainQuery q = true ->
  like (q ++ String percent EmptyString) s = String.prefix q s.
Proof.
  revert s. induction q as [|c q IH]; intros s Hq.
  - cbn [append]. rewrite like_any. now destruct s.
  - cbn [plainQuery] in Hq. apply andb_true_iff in Hq. destruct Hq as [Hc Hq].
    cbn [append]. rewrite (like_plain _ _ _ Hc). destruct s as [|y s]; [reflexivity|].
    rewrite prefix_cons, IH by exact Hq. reflexivity.
Qed.

Lemma like_plain_contains (q s : string) :
  plainQuery q = true ->
  like (String percent (q ++ String percent EmptyString)) s = containsb q s.
Proof.
  intros Hq. induction s as [|y s IH].
  - rewrite like_percent, (like_plain_prefix _ _ Hq). reflexivity.
  - rewrite like_percent, (like_plain_prefix _ _ Hq), IH. reflexivity.
Qed.

Lemma lower_special (c : ascii) :
  Ascii.eqb (lower c) percent = Ascii.eqb c percent /\
  Ascii.eqb (lower c) underscore = Ascii.eqb c underscore /\
  Ascii.eqb (lower c) backslash = Ascii.eqb c backslash.
Proof.
  destruct c as [[] [] [] [] [] [] [] []]; vm_compute; repeat split.
Qed.

Lemma plainChar_lower (c : ascii) : plainChar (lower c) = plainChar c.
Proof.
  unfold plainChar. destruct (lower_special c) as (-> & -> & ->). reflexivity.
Qed.

Lemma plainQuery_lowercase (q : string) : plainQuery (lowercase q) = plainQuery q.
Proof.
  induction q as [|c q IH]; [reflexivity|].
  cbn [lowercase plainQuery]. now rewrite plainChar_lower, IH.
Qed.

Lemma lowercase_app (a b : string) :
  lowercase (a ++ b) = (lowercase a ++ lowercase b)%string.
Proof.
  induction a as [|c a IH]; [reflexivity|].
  cbn [append lowercase]. now rewrite IH.
Qed.

Lemma contains_insensitive_pattern (q s : string) :
  contains_insensitive q s =
  like (String percent (lowercase q ++ String percent EmptyString)) (lowercase s).
Proof.
  unfold contains_insensitive. cbn [lowercase]. rewrite lowercase_app. reflexivity.
Qed.

(** For a query without pattern characters the filter is the
    case-insensitive substring test. *)
Lemma contains_insensitive_plain (q s : string) :
  plainQuery q = true ->
  contains_insensitive q s = substring_insensitive q s.
Proof.
  intros Hq. rewrite contains_insensitive_pattern. unfold substring_insensitive.
  apply like_plain_contains. now rewrite plainQuery_lowercase.
Qed.

Lemma contains_insensitive_empty (s : string) :
  contains_insensitive EmptyString s = true.
Proof.
  rewrite contains_insensitive_plain by reflexivity.
  unfold substring_insensitive. cbn [lowercase]. now destruct (lowercase s).
Qed.

(* ================================================================== *)
(** * Search *)
(* ================================================================== *)


Lemma filter_ext_eq {A : Type} (p p' : A -> bool) (l : list A) :
  (forall a, p a = p' a) -> filter p l = filter p' l.
Proof. intros Hpp. apply filter_ext_in. auto. Qed.

Section Search.
Context `{Collaborators}.
Variables (ctx : Ctx.t) (input : SearchInput.t).


Lemma searchMultipleItems_calls (st : Store) :
  calls (searchMultipleItems ctx input) st =
  [CallFindMany (searchArgs (whereSearch ctx input) (SearchInput.take input))].
Proof. reflexivity. Qed.

(** The page of a search query: no ordering, no cursor, nothing skipped. *)
Lemma selectRows_search (st : Store) (w : ItemWhere) (take : Z) :
  selectRows st (searchArgs w take) =
  if take <? 0
  then rev (firstn (Z.abs_nat take) (rev (filter (evalWhere st w) (items st))))
  else firstn (Z.abs_nat take) (filter (evalWhere st w) (items st)).
Proof.
  unfold selectRows, searchArgs. simpl. destruct (take <? 0); reflexivity.
Qed.


Lemma evalWhere_search_pro (st : Store) (i : Item.t) (q : string) :
  SearchInput.plan input = pro ->
  SearchInput.query input = Some q ->
  evalWhere st (whereSearch ctx input) i = true ->
  contains_insensitive q (Item.title i) = true /\
  exists c, Item.website_content i = Some c /\ contains_insensitive q c = true.
Proof.
  intros Hplan Hq. unfold evalWhere, whereSearch.
  rewrite Hplan, Hq. simpl. unfold evalStringFilter, evalStringFilterNullable. simpl.
  rewrite !andb_true_r. intros Hw.
  apply andb_prop in Hw as [Hw _]. apply andb_prop in Hw as [Htitle Hcontent].
  split; [exact Htitle|].
  destruct (Item.website_content i) as [c|]; [|discriminate].
  now exists c.
Qed.
End Search.


Lemma search_predicate_erased (st : Store) (u : string) (query : option string)
    (i : Item.t) :
  titleMatches query i && subscribedTo st u i =
  titleMatches query (setWebsiteContent None i)
  && subscribedTo st u (setWebsiteContent None i).
Proof. reflexivity. Qed.









(* ================================================================== *)
(** * Paging through the "all" and recently-read views *)
(* ================================================================== *)

Lemma filter_length_lt {A : Type} (p : A -> bool) (l : list A) (x : A) :
  In x l -> p x = false -> (List.length (filter p l) < List.length l)%nat.
Proof.
  induction l as [|y l IH]; simpl; intros Hin Hx; [contradiction|].
  destruct Hin as [-> | Hin].
  - rewrite Hx. pose proof (subseq_length _ _ (subseq_filter p l)). lia.
  - specialize (IH Hin Hx). destruct (p y); simpl; lia.
Qed.

(** In the "all" view the cursor is taken from the page left by the
    subscription-window check: as soon as that check drops a fetched row, no
    cursor comes back, full fetch or not. *)
Lemma all_view_no_cursor_after_drop `{Collaborators}
    (ctx : Ctx.t) (input : Input.t) (st : Store) (x : Fetched.t) :
  Input.type input = all ->
  0 < Input.amount input ->
  In x (findMany st (viewQuery ctx input st)) ->
  afterPaginationStart x = false ->
  nextCursor (result (getUnreadItems ctx input) st) = None.
Proof.
  intros Htype Hamount Hx Hdrop.
  rewrite getUnreadItems_result. cbn [nextCursor].
  apply getNextPrismaCursor_short.
  unfold cursorPage, arrangePage, transformItems. rewrite Htype, length_map.
  pose proof (filter_length_lt afterPaginationStart _ x Hx Hdrop).
  pose proof (findMany_length st (viewQuery ctx input st)) as Hlen.
  change (fm_take (viewQuery ctx input st)) with (Input.amount input) in Hlen.
  lia.
Qed.

(** C2, evaluated on a failing input. Over [backlogStore] the "all" view
    with [amount = 2] fetches "3" and "2", drops "3" (older than the
    subscription) and hands back "2" without a cursor: paging ends there,
    whatever the number of requests allowed. Item "1" satisfies the view's
    [where] and the subscription-window check and is never returned. *)
Theorem all_view_paging_stops_early :
  let C := sampleCollaborators [] in
  let input := request 2 Latest all None in
  let q := sharedQuery sampleCtx input (whereAll sampleCtx) in
  let missed := article "1" "After subscribing, again" 2100 "f1" [] in
  map Fetched.id (findMany backlogStore q) = ["3"; "2"]%string /\
  (forall fuel,
     map (fun r => (map FlatItem.id (transformedItems r), nextCursor r))
         (pagesFrom (S fuel) sampleCtx input backlogStore)
     = [(["2"]%string, None)]) /\
  In missed (items backlogStore) /\
  evalWhere backlogStore (whereAll sampleCtx) missed = true /\
  afterPaginationStart (includeRelations backlogStore (fm_include q) missed) = true.
Proof.
  intros C input q missed.
  split; [reflexivity|].
  split; [intros fuel; reflexivity|].
  split; [left; reflexivity|].
  split; reflexivity.
Qed.

(** The one-feed view over the same snapshot, whose cursor is taken from
    the fetched page as it is, goes through all three items. *)
Example one_view_paging_covers :
  let C := sampleCollaborators [] in
  map (fun r => (map FlatItem.id (transformedItems r), nextCursor r))
      (pagesFrom 3 sampleCtx (request 2 Latest one (Some "f1"%string)) backlogStore)
  = [(["3"; "2"]%string, Some "2"%string); (["1"]%string, None)].
Proof. reflexivity. Qed.

(** In the recently-read view the cursor is taken after the in-memory
    sort. Over [readStore] with [Oldest] the first fetch is "2", "1" (ids
    descending); the page comes back as "1", "2" with cursor "2", the last
    item shown, where the last item fetched is "1"; the next page starts
    after "2" and returns "1" a second time. *)
Example recentlyread_cursor_follows_display_order :
  let C := sampleCollaborators [] in
  let input := request 2 Oldest recentlyread None in
  map Fetched.id
      (findMany readStore (sharedQuery sampleCtx input (whereRecentlyRead sampleCtx)))
  = ["2"; "1"]%string /\
  map (fun r => (map FlatItem.id (transformedItems r), nextCursor r))
      (pagesFrom 3 sampleCtx input readStore)
  = [(["1"; "2"]%string, Some "2"%string);
     (["1"; "0"]%string, Some "0"%string);
     ([], None)].
Proof. split; reflexivity. Qed.

(* ================================================================== *)
(** * Paging through the views that hand out the fetched page *)
(* ================================================================== *)

Lemma chunks_concat {A : Type} (fuel n : nat) (rest : list A) :
  (0 < n)%nat -> (List.length rest < fuel)%nat ->
  List.concat (chunks fuel n rest) = rest.
Proof.
  intros Hn. revert rest.
  induction fuel as [|fuel IH]; intros rest Hfuel; [lia|].
  simpl. destruct (Nat.eqb_spec (List.length (firstn n rest)) n) as [Hfull|Hshort].
  - rewrite IH; [apply firstn_skipn|].
    rewrite length_skipn. rewrite length_firstn in Hfull. lia.
  - simpl. rewrite app_nil_r. apply firstn_all2.
    rewrite length_firstn in Hshort. lia.
Qed.

Lemma chunks_bounded {A : Type} (fuel n : nat) (rest : list A) :
  Forall (fun page => (List.length page <= n)%nat) (chunks fuel n rest).
Proof.
  revert rest. induction fuel as [|fuel IH]; intros rest; simpl; constructor.
  - apply firstn_le_length.
  - destruct (Nat.eqb _ n); [apply IH | constructor].
Qed.

Lemma StronglySorted_app_middle {A : Type} (R : A -> A -> Prop)
    (l1 l2 : list A) (x : A) :
  StronglySorted R (l1 ++ x :: l2) ->
  Forall (fun y => R y x) l1 /\ Forall (R x) l2.
Proof.
  induction l1 as [|y l1 IH]; simpl; intros Hs.
  - inversion Hs; subst. split; [constructor | assumption].
  - inversion Hs as [|? ? Hs' Hall]; subst.
    destruct (IH Hs') as [H1 H2]. split; [|exact H2].
    constructor; [|exact H1].
    rewrite Forall_forall in Hall. apply Hall. apply in_elt.
Qed.

(** On rows sorted by id with no id twice, the rows from the cursor row
    onwards are the cursor row and what follows it. *)
Lemma filter_from_cursor (d : SortOrder) (l1 l2 : list Item.t) (x : Item.t) :
  StronglySorted (holds (rows_in_order d)) (l1 ++ x :: l2) ->
  NoDup (map Item.id (l1 ++ x :: l2)) ->
  filter (fun i => id_le d (Item.id x) (Item.id i)) (l1 ++ x :: l2) = x :: l2.
Proof.
  intros Hsorted Hnd.
  destruct (StronglySorted_app_middle _ _ _ _ Hsorted) as [Hbefore Hafter].
  rewrite filter_app. simpl. rewrite id_le_refl.
  replace (filter _ l1) with (@nil Item.t).
  - simpl. f_equal. apply forallb_filter_id. apply forallb_forall.
    rewrite Forall_forall in Hafter. exact Hafter.
  - symmetry. induction l1 as [|y l1 IH]; [reflexivity|].
    simpl in *. inversion Hbefore as [|? ? Hyx Hbefore']; subst.
    inversion Hnd as [|? ? Hnot Hnd']; subst.
    inversion Hsorted as [|? ? Hsorted' _]; subst.
    destruct (id_le d (Item.id x) (Item.id y)) eqn:Hxy.
    + exfalso. apply Hnot.
      assert (Item.id y = Item.id x)
        by (apply (id_le_antisym d); assumption).
      rewrite H. rewrite map_app. apply in_or_app. right. now left.
    + now apply IH.
Qed.

Section Paging.
Context `{Collaborators}.
Variables (ctx : Ctx.t) (input : Input.t) (st : Store) (d : SortOrder).

Hypothesis Hunique : unique_item_ids st.
Hypothesis Hamount : 0 < Input.amount input.
Hypothesis Hplain : Input.type input <> all /\ Input.type input <> recentlyread.
Hypothesis Hd : fm_orderBy (viewQuery ctx input st) = Some d.

(** The qualifying rows, in the requested order. *)
Let qualifying : list Item.t :=
  orderRows (Some d) (filter (evalWhere st (viewWhere ctx input st)) (items st)).

Let n : nat := Z.to_nat (Input.amount input).

(** The response that goes with a page of rows. *)
Let respOf (page : list Item.t) : Response :=
  {| transformedItems :=
       suppress ctx input
         (transformItems
            (map (includeRelations st (fm_include (viewQuery ctx input st))) page));
     nextCursor := getNextPrismaCursor Item.id page (Input.amount input) |}.

Lemma qualifying_sorted : StronglySorted (holds (rows_in_order d)) qualifying.
Proof. apply orderRows_sorted. Qed.

Lemma qualifying_In (i : Item.t) :
  In i qualifying <->
  In i (items st) /\ evalWhere st (viewWhere ctx input st) i = true.
Proof. unfold qualifying. rewrite orderRows_In. apply filter_In. Qed.

Lemma qualifying_NoDup : NoDup (map Item.id qualifying).
Proof.
  unfold qualifying. simpl.
  eapply Permutation_NoDup;
    [apply Permutation_map, Permutation_sym, sortBy_perm|].
  eapply subseq_NoDup; [apply subseq_map, subseq_filter | exact Hunique].
Qed.

Lemma page_rows (c : option string) :
  selectRows st (viewQuery ctx (withCursor input c) st) =
  firstn n (skipn (match c with None => 0 | Some _ => 1 end)
                  (fromCursor st (Some d) c qualifying)).
Proof.
  rewrite selectRows_forward by (simpl; lia).
  change (fm_orderBy (viewQuery ctx (withCursor input c) st))
    with (fm_orderBy (viewQuery ctx input st)).
  rewrite Hd. reflexivity.
Qed.

Lemma first_page_rows :
  selectRows st (viewQuery ctx (withCursor input None) st) = firstn n qualifying.
Proof. rewrite page_rows. reflexivity. Qed.

Lemma next_page_rows (l1 rest : list Item.t) (x : Item.t) :
  qualifying = l1 ++ x :: rest ->
  selectRows st (viewQuery ctx (withCursor input (Some (Item.id x))) st) =
  firstn n rest.
Proof.
  intros Hsplit. rewrite page_rows. simpl fromCursor.
  assert (Hx : In x (items st)).
  { apply qualifying_In. rewrite Hsplit. apply in_elt. }
  assert (Hex : existsb (fun i => String.eqb (Item.id i) (Item.id x)) (items st) = true).
  { apply existsb_exists. exists x. split; [exact Hx | apply String.eqb_refl]. }
  rewrite Hex.
  pose proof qualifying_sorted as Hsorted. pose proof qualifying_NoDup as Hnd.
  rewrite Hsplit in Hsorted, Hnd |- *.
  rewrite filter_from_cursor by assumption. reflexivity.
Qed.

Lemma page_response (c : option string) :
  result (getUnreadItems ctx (withCursor input c)) st =
  respOf (selectRows st (viewQuery ctx (withCursor input c) st)).
Proof.
  rewrite getUnreadItems_result. unfold respOf.
  assert (Hpage : cursorPage ctx (withCursor input c) st =
                  transformItems
                    (map (includeRelations st (fm_include (viewQuery ctx input st)))
                         (selectRows st (viewQuery ctx (withCursor input c) st)))).
  { unfold cursorPage, arrangePage. cbn [Input.type withCursor].
    destruct Hplain as [Hall Hrr].
    destruct (Input.type input) eqn:Et; try congruence; reflexivity. }
  rewrite Hpage. f_equal.
  unfold transformItems. rewrite map_map.
  apply getNextPrismaCursor_map. reflexivity.
Qed.

(** Paging from any point of the qualifying rows hands out what follows,
    page by page. *)
Lemma pagesFrom_chunks (fuel : nat) :
  forall (l1 rest : list Item.t) (c : option string),
    qualifying = l1 ++ rest ->
    (l1 = [] /\ c = None) \/
    (exists l1' x, l1 = l1' ++ [x] /\ c = Some (Item.id x)) ->
    pagesFrom fuel ctx (withCursor input c) st = map respOf (chunks fuel n rest).
Proof.
  induction fuel as [|fuel IH]; intros l1 rest c Hsplit Hcursor; [reflexivity|].
  assert (Hrows : selectRows st (viewQuery ctx (withCursor input c) st) = firstn n rest).
  { destruct Hcursor as [[-> ->] | [l1' [x [-> ->]]]].
    - rewrite first_page_rows. simpl in Hsplit. now rewrite Hsplit.
    - apply next_page_rows with (l1 := l1').
      rewrite Hsplit, <- app_assoc. reflexivity. }
  cbn [pagesFrom chunks map]. rewrite page_response, Hrows.
  f_equal.
  unfold respOf at 1. cbn [nextCursor]. unfold getNextPrismaCursor.
  destruct (Nat.eqb_spec (List.length (firstn n rest)) n) as [Hfull|Hshort].
  - assert (E : (Z.of_nat (List.length (firstn n rest)) =? Input.amount input) = true)
      by (apply Z.eqb_eq; subst n; lia).
    rewrite E.
    destruct (lastOf_nonempty (firstn n rest)) as [x Hx].
    { intros Hnil. rewrite Hnil in Hfull. simpl in Hfull. subst n. lia. }
    rewrite Hx. simpl option_map. cbv iota.
    destruct (lastOf_Some_app _ _ Hx) as [page' Hpage'].
    change (withCursor (withCursor input c) (Some (Item.id x)))
      with (withCursor input (Some (Item.id x))).
    apply IH with (l1 := l1 ++ firstn n rest).
    + rewrite <- app_assoc, firstn_skipn. exact Hsplit.
    + right. exists (l1 ++ page'), x. split; [|reflexivity].
      rewrite Hpage', app_assoc. reflexivity.
  - assert (E : (Z.of_nat (List.length (firstn n rest)) =? Input.amount input) = false)
      by (apply Z.eqb_neq; subst n; lia).
    rewrite E. reflexivity.
Qed.
End Paging.

Lemma withCursor_same (input : Input.t) :
  withCursor input (Input.cursor input) = input.
Proof. destruct input; reflexivity. Qed.

Lemma sharedQuery_orderBy (ctx : Ctx.t) (input : Input.t) (w : ItemWhere) :
  Input.type input <> recentlyread ->
  Input.sort input = Latest \/ Input.sort input = Oldest ->
  exists d, fm_orderBy (sharedQuery ctx input w) = Some d.
Proof.
  intros Hrr Hsort. unfold sharedQuery. cbn [fm_orderBy].
  destruct (Input.type input); try congruence;
    destruct Hsort as [-> | ->]; simpl; eauto.
Qed.

(** X13. Paging through a view that hands out the fetched page as it is (one,
    multiple, discover, bookmarks, newsletters), sorted by id: with ids a
    primary key and a positive [amount], feeding each cursor back fetches
    the qualifying rows page by page, every one of them in exactly one
    page; each response is the (duplicate-suppressed, where the view does
    so) projection of its page. *)
Theorem paging_covers_plain_views `{Collaborators}
    (ctx : Ctx.t) (input : Input.t) (st : Store) (fuel : nat) :
  unique_item_ids st ->
  0 < Input.amount input ->
  Input.cursor input = None ->
  Input.type input <> all /\ Input.type input <> recentlyread ->
  Input.sort input = Latest \/ Input.sort input = Oldest ->
  (List.length (filter (evalWhere st (viewWhere ctx input st)) (items st)) < fuel)%nat ->
  exists pages : list (list Item.t),
    (forall i, In i (List.concat pages) <->
               In i (items st) /\ evalWhere st (viewWhere ctx input st) i = true) /\
    NoDup (map Item.id (List.concat pages)) /\
    Forall (fun page => Z.of_nat (List.length page) <= Input.amount input) pages /\
    map transformedItems (pagesFrom fuel ctx input st) =
    map (fun page =>
           suppress ctx input
             (transformItems
                (map (includeRelations st (fm_include (viewQuery ctx input st))) page)))
        pages.
Proof.
  intros Huniq Hamount Hcursor Hplain Hsort Hfuel.
  destruct (sharedQuery_orderBy ctx input (viewWhere ctx input st)
              (proj2 Hplain) Hsort) as [d Hd].
  fold (viewQuery ctx input st) in Hd.
  set (qualifying :=
         orderRows (Some d)
           (filter (evalWhere st (viewWhere ctx input st)) (items st))).
  exists (chunks fuel (Z.to_nat (Input.amount input)) qualifying).
  assert (Hconcat : List.concat (chunks fuel (Z.to_nat (Input.amount input)) qualifying)
                    = qualifying).
  { apply chunks_concat; [lia|].
    unfold qualifying. simpl. now rewrite sortBy_length. }
  rewrite Hconcat.
  split; [intros i; now apply qualifying_In|].
  split; [now apply qualifying_NoDup|].
  split.
  { eapply Forall_impl; [|apply chunks_bounded]. intros page Hpage.
    simpl in Hpage. lia. }
  rewrite <- (withCursor_same input) at 1. rewrite Hcursor.
  rewrite (pagesFrom_chunks ctx input st d Huniq Hamount Hplain Hd fuel [] qualifying None);
    [|reflexivity | left; split; reflexivity].
  rewrite map_map. reflexivity.
Qed.

Lemma backlog_unique_item_ids : unique_item_ids backlogStore.
Proof.
  unfold unique_item_ids. simpl.
  repeat constructor; simpl; intuition discriminate.
Qed.

(** The one-feed view over [backlogStore], two items a page: the pages
    fetched are "3", "2" and then "1". *)
Lemma paging_covers_plain_views_witness :
  let C := sampleCollaborators [] in
  let input := request 2 Latest one (Some "f1"%string) in
  exists pages : list (list Item.t),
    (forall i, In i (List.concat pages) <->
               In i (items backlogStore) /\
               evalWhere backlogStore (viewWhere sampleCtx input backlogStore) i = true) /\
    NoDup (map Item.id (List.concat pages)) /\
    map transformedItems (pagesFrom 4 sampleCtx input backlogStore) =
    map (fun page =>
           suppress sampleCtx input
             (transformItems
                (map (includeRelations backlogStore
                        (fm_include (viewQuery sampleCtx input backlogStore))) page)))
        pages.
Proof.
  intros C input.
  destruct (@paging_covers_plain_views C sampleCtx input backlogStore 4
              backlog_unique_item_ids eq_refl eq_refl)
    as [pages [Hin [Hnd [_ Hpages]]]].
  - split; discriminate.
  - left; reflexivity.
  - simpl. lia.
  - exists pages. auto.
Defined.

(* ================================================================== *)
(** * Further properties of [getUnreadItems] *)
(* ================================================================== *)

(** X1. Whatever the view, the page handed to the client holds at most
    [|amount|] items, as long as the duplicate suppressor only removes
    items. *)
Theorem returned_page_within_amount `{Collaborators}
    (ctx : Ctx.t) (input : Input.t) (st : Store) :
  suppresses_within_page ->
  (List.length (transformedItems (result (getUnreadItems ctx input) st))
   <= Z.abs_nat (Input.amount input))%nat.
Proof.
  intros Hsub. rewrite getUnreadItems_result. cbn [transformedItems].
  eapply Nat.le_trans; [|apply cursorPage_length].
  unfold suppress. destruct (suppressionFlag _); [|apply Nat.le_refl].
  apply subseq_length, Hsub.
Qed.

Lemma returned_page_within_amount_witness :
  let C := sampleCollaborators [] in
  suppresses_within_page /\
  (List.length
     (transformedItems
        (result (getUnreadItems sampleCtx (request 2 Latest one None)) mixedStore))
   <= 2)%nat.
Proof.
  intros C. split; [apply sample_suppresses_within_page|].
  apply (@returned_page_within_amount C sampleCtx (request 2 Latest one None)
           mixedStore (sample_suppresses_within_page [])).
Defined.

Lemma notReadBy_spec (u : string) (rows : list UserItem.t) :
  evalUserItemsWhere (notReadBy u) rows = true <->
  forall s, In s rows -> UserItem.user_id s = u -> UserItem.marked_read s = false.
Proof.
  unfold evalUserItemsWhere, notReadBy.
  cbn [optb uis_some uis_every uis_none andb].
  rewrite negb_true_iff. split.
  - intros Hnone s Hs Hu.
    destruct (UserItem.marked_read s) eqn:Hread; [|reflexivity].
    assert (Hex : existsb (evalUserItemWhere (UW_AND (UW_marked_read true) (UW_user_id u)))
                          rows = true).
    { apply existsb_exists. exists s. split; [exact Hs|]. simpl.
      rewrite Hread, Hu, String.eqb_refl. reflexivity. }
    congruence.
  - intros Hall.
    destruct (existsb _ rows) eqn:Hex; [|reflexivity].
    apply existsb_exists in Hex as [s [Hs Hw]]. simpl in Hw.
    apply andb_prop in Hw as [Hread Hu].
    apply Bool.eqb_prop in Hread. apply String.eqb_eq in Hu.
    rewrite (Hall s Hs Hu) in Hread. discriminate.
Qed.

Lemma recencyGuard_spec (st : Store) (t : Z) (f : Feed.t) :
  forallb (fun i => t <=? Item.created_at i) (itemsOfFeed st f) = true <->
  forall j, In j (items st) -> Item.feed_id j = Some (Feed.id f) ->
            t <= Item.created_at j.
Proof.
  rewrite forallb_forall. unfold itemsOfFeed. split.
  - intros Hall j Hj Hfeed. apply Z.leb_le. apply Hall.
    apply filter_In. split; [exact Hj|]. rewrite Hfeed. apply String.eqb_refl.
  - intros Hall j Hj. apply filter_In in Hj as [Hj Hfeed].
    apply Z.leb_le. apply Hall; [exact Hj|].
    destruct (Item.feed_id j) as [fid|]; [|discriminate].
    apply String.eqb_eq in Hfeed. now subst.
Qed.

Lemma evalWhere_parts (st : Store) (w : ItemWhere) (i : Item.t) :
  evalWhere st w i = true ->
  optb (w_feed_id w) (fun f => evalFeedIdFilter f (Item.feed_id i)) = true /\
  optb (w_feed w)
       (fun fw => match feedOf st i with
                  | None => false
                  | Some f => evalFeedWhere st fw f
                  end) = true /\
  optb (w_user_items w) (fun uw => evalUserItemsWhere uw (Item.user_items i)) = true.
Proof.
  unfold evalWhere. intros Hw.
  apply andb_prop in Hw as [Hw Hitems].
  apply andb_prop in Hw as [Hw Hfeed].
  apply andb_prop in Hw as [_ Hfid].
  auto.
Qed.

Section UnreadViews.
Context `{Collaborators}.
Variables (ctx : Ctx.t) (input : Input.t) (st : Store).
Hypothesis Hview : unreadView (Input.type input).

Lemma unreadView_user_items :
  w_user_items (viewWhere ctx input st) = Some (notReadBy (Ctx.user_id ctx)).
Proof.
  unfold viewWhere.
  destruct Hview as [-> | [-> | [-> | ->]]]; reflexivity.
Qed.

Lemma unreadView_feed :
  w_feed (viewWhere ctx input st) =
  Some {| fw_users_some_user_id :=
            match Input.type input with
            | discover => None
            | _ => Some (Ctx.user_id ctx)
            end;
          fw_items_every_created_at_gte := Some (thirtyDaysAgo ctx) |}.
Proof.
  unfold viewWhere.
  destruct Hview as [-> | [-> | [-> | ->]]]; reflexivity.
Qed.

(** What the [where] of an unread view asks of a row. *)
Lemma unreadView_where (i : Item.t) :
  evalWhere st (viewWhere ctx input st) i = true ->
  (forall s, In s (Item.user_items i) ->
             UserItem.user_id s = Ctx.user_id ctx -> UserItem.marked_read s = false) /\
  (exists f, feedOf st i = Some f /\
             (forall j, In j (items st) -> Item.feed_id j = Some (Feed.id f) ->
                        thirtyDaysAgo ctx <= Item.created_at j) /\
             (Input.type input <> discover ->
              exists s, In s (Feed.users f) /\ UserFeed.user_id s = Ctx.user_id ctx)).
Proof.
  intros Hw. apply evalWhere_parts in Hw as [_ [Hfeed Hitems]].
  rewrite unreadView_user_items in Hitems. rewrite unreadView_feed in Hfeed.
  cbn [optb] in Hitems, Hfeed.
  split; [now apply notReadBy_spec|].
  destruct (feedOf st i) as [f|]; [|discriminate].
  exists f. split; [reflexivity|].
  unfold evalFeedWhere in Hfeed.
  cbn [fw_users_some_user_id fw_items_every_created_at_gte] in Hfeed.
  apply andb_prop in Hfeed as [Husers Hrecent].
  cbn [optb] in Hrecent. split; [now apply recencyGuard_spec|].
  intros Hnd.
  destruct (Input.type input); try contradiction;
    cbn [optb] in Husers;
    apply existsb_exists in Husers as [s [Hs Hu]];
    exists s; (split; [exact Hs | now apply String.eqb_eq]).
Qed.
End UnreadViews.

(** X2. In the views of unread items (all, one, multiple, discover) no
    returned item carries a state row of the requesting user that is marked
    read; with ids a primary key, an item the user has marked read is on no
    page. *)
Theorem unread_views_skip_read_items `{Collaborators}
    (ctx : Ctx.t) (input : Input.t) (st : Store) :
  suppresses_within_page ->
  unreadView (Input.type input) ->
  let r := result (getUnreadItems ctx input) st in
  (forall t, In t (transformedItems r) ->
     exists i, In i (items st) /\ FlatItem.id t = Item.id i /\
       forall s, In s (Item.user_items i) ->
                 UserItem.user_id s = Ctx.user_id ctx ->
                 UserItem.marked_read s = false) /\
  (unique_item_ids st ->
   forall i s, In i (items st) -> In s (Item.user_items i) ->
               UserItem.user_id s = Ctx.user_id ctx ->
               UserItem.marked_read s = true ->
               ~ In (Item.id i) (map FlatItem.id (transformedItems r))).
Proof.
  intros Hsub Hview r. subst r. split.
  - intros t Ht. apply returned_In in Ht; [|now left].
    apply cursorPage_In in Ht as [i [x [Hi [Hw [Hx [_ ->]]]]]].
    apply (unreadView_where ctx input st Hview) in Hw as [Hunread _].
    exists i. rewrite Hx. repeat split; assumption.
  - intros Huniq i s Hi Hs Hu Hread Hin.
    assert (Hpage : In (Item.id i) (map FlatItem.id (cursorPage ctx input st))).
    { apply in_map_iff in Hin as [t [Hid Ht]].
      apply in_map_iff. exists t. split; [exact Hid|].
      apply returned_In; [now left | exact Ht]. }
    apply cursorPage_id in Hpage; try assumption.
    apply (unreadView_where ctx input st Hview) in Hpage as [Hunread _].
    rewrite (Hunread s Hs Hu) in Hread. discriminate.
Qed.

Lemma mixed_unique_item_ids : unique_item_ids mixedStore.
Proof.
  unfold unique_item_ids. simpl.
  repeat constructor; simpl; intuition discriminate.
Qed.

Lemma unread_views_skip_read_items_witness :
  let C := sampleCollaborators [] in
  let input := request 5 Latest all None in
  suppresses_within_page /\
  unreadView (Input.type input) /\
  unique_item_ids mixedStore /\
  ~ In "3"%string
       (map FlatItem.id
            (transformedItems (result (getUnreadItems sampleCtx input) mixedStore))).
Proof.
  intros C input.
  split; [apply sample_suppresses_within_page|].
  assert (Hview : unreadView (Input.type input)) by (left; reflexivity).
  split; [exact Hview|].
  split; [apply mixed_unique_item_ids|].
  destruct (@unread_views_skip_read_items C sampleCtx input mixedStore
              (sample_suppresses_within_page []) Hview) as [_ Hnever].
  apply (Hnever mixed_unique_item_ids
           (article "3" "Read already" 2200 "f1" [readBy "u1" 3000])
           (readBy "u1" 3000)).
  - right; right; left; reflexivity.
  - left; reflexivity.
  - reflexivity.
  - reflexivity.
Defined.

(** X3. In the views of unread items every returned item belongs to a feed
    none of whose items is older than thirty days, and, except in the
    discover view, to a feed the requesting user subscribes to. With ids a
    primary key, a feed that holds one item older than thirty days
    contributes no item at all, however recent. *)
Theorem unread_views_feed_guard `{Collaborators}
    (ctx : Ctx.t) (input : Input.t) (st : Store) :
  suppresses_within_page ->
  unreadView (Input.type input) ->
  let r := result (getUnreadItems ctx input) st in
  (forall t, In t (transformedItems r) ->
     exists i f,
       In i (items st) /\ FlatItem.id t = Item.id i /\
       feedOf st i = Some f /\
       (forall j, In j (items st) -> Item.feed_id j = Some (Feed.id f) ->
                  thirtyDaysAgo ctx <= Item.created_at j) /\
       (Input.type input <> discover ->
        exists s, In s (Feed.users f) /\ UserFeed.user_id s = Ctx.user_id ctx)) /\
  (unique_item_ids st ->
   forall i j f, In i (items st) -> In j (items st) ->
                 feedOf st i = Some f ->
                 Item.feed_id j = Some (Feed.id f) ->
                 Item.created_at j < thirtyDaysAgo ctx ->
                 ~ In (Item.id i) (map FlatItem.id (transformedItems r))).
Proof.
  intros Hsub Hview r. subst r. split.
  - intros t Ht. apply returned_In in Ht; [|now left].
    apply cursorPage_In in Ht as [i [x [Hi [Hw [Hx [_ ->]]]]]].
    apply (unreadView_where ctx input st Hview) in Hw
      as [_ [f [Hfeed [Hrecent Hsubscribed]]]].
    exists i, f. rewrite Hx. repeat split; assumption.
  - intros Huniq i j f Hi Hj Hfeed Hsame Hold Hin.
    assert (Hpage : In (Item.id i) (map FlatItem.id (cursorPage ctx input st))).
    { apply in_map_iff in Hin as [t [Hid Ht]].
      apply in_map_iff. exists t. split; [exact Hid|].
      apply returned_In; [now left | exact Ht]. }
    apply cursorPage_id in Hpage; try assumption.
    apply (unreadView_where ctx input st Hview) in Hpage
      as [_ [f' [Hfeed' [Hrecent _]]]].
    assert (f' = f) by congruence. subst f'.
    specialize (Hrecent j Hj Hsame). lia.
Qed.

Lemma unread_views_feed_guard_witness :
  let C := sampleCollaborators [] in
  let input := request 5 Latest discover (Some "f3"%string) in
  let r := result (getUnreadItems sampleCtx input) mixedStore in
  suppresses_within_page /\
  unreadView (Input.type input) /\
  unique_item_ids mixedStore /\
  ~ In "4"%string (map FlatItem.id (transformedItems r)).
Proof.
  intros C input r.
  split; [apply sample_suppresses_within_page|].
  assert (Hview : unreadView (Input.type input)) by (right; right; right; reflexivity).
  split; [exact Hview|].
  split; [apply mixed_unique_item_ids|].
  destruct (@unread_views_feed_guard C sampleCtx input mixedStore
              (sample_suppresses_within_page []) Hview) as [_ Hnever].
  apply (Hnever mixed_unique_item_ids
           (article "4" "Stale feed, new item" 2300 "f3" [])
           (article "5" "Stale feed, old item" 100 "f3" [])
           feedThree).
  - right; right; right; left; reflexivity.
  - right; right; right; right; left; reflexivity.
  - reflexivity.
  - reflexivity.
  - reflexivity.
Defined.

(** X4. The views pinned to feeds return items of those feeds only: with a
    [feed_id], "one" and "discover" return items of that feed; "multiple"
    returns items of the feeds the folder resolver names. *)
Theorem pinned_views_return_requested_feeds `{Collaborators}
    (ctx : Ctx.t) (input : Input.t) (st : Store) :
  suppresses_within_page ->
  forall t, In t (transformedItems (result (getUnreadItems ctx input) st)) ->
    exists i, In i (items st) /\ FlatItem.id t = Item.id i /\
      match Input.type input with
      | one | discover =>
          forall f, Input.feed_id input = Some f -> Item.feed_id i = Some f
      | multiple =>
          exists f, Item.feed_id i = Some f /\
                    In f (getFolderFeedIds (Input.folder input) (Ctx.user_id ctx) st)
      | _ => True
      end.
Proof.
  intros Hsub t Ht. apply returned_In in Ht; [|now left].
  apply cursorPage_In in Ht as [i [x [Hi [Hw [Hx [_ ->]]]]]].
  exists i. rewrite Hx. split; [exact Hi|]. split; [reflexivity|].
  apply evalWhere_parts in Hw as [Hfid _].
  unfold viewWhere in Hfid.
  destruct (Input.type input); try exact I; cbn [w_feed_id whereFeeds whereDiscover] in Hfid.
  - intros f Hf. rewrite Hf in Hfid. simpl in Hfid.
    destruct (Item.feed_id i) as [g|]; [|discriminate].
    apply String.eqb_eq in Hfid. now subst.
  - simpl in Hfid. destruct (Item.feed_id i) as [g|]; [|discriminate].
    apply existsb_exists in Hfid as [f [Hf Heq]].
    apply String.eqb_eq in Heq. subst. now exists f.
  - intros f Hf. rewrite Hf in Hfid. simpl in Hfid.
    destruct (Item.feed_id i) as [g|]; [|discriminate].
    apply String.eqb_eq in Hfid. now subst.
Qed.

Lemma pinned_views_return_requested_feeds_witness :
  let C := sampleCollaborators [("tech", ["f2"])]%string in
  let input :=
    {| Input.amount := 5; Input.sort := Latest; Input.type := multiple;
       Input.folder := Some "tech"%string; Input.feed_id := None;
       Input.cursor := None |} in
  let r := result (getUnreadItems sampleCtx input) mixedStore in
  suppresses_within_page /\
  map FlatItem.id (transformedItems r) = ["2"]%string /\
  forall t, In t (transformedItems r) ->
    exists i, In i (items mixedStore) /\ FlatItem.id t = Item.id i /\
              Item.feed_id i = Some "f2"%string.
Proof.
  intros C input r.
  split; [apply sample_suppresses_within_page|].
  split; [reflexivity|].
  intros t Ht.
  destruct (@pinned_views_return_requested_feeds C sampleCtx input mixedStore
              (sample_suppresses_within_page _) t Ht)
    as [i [Hi [Hid [f [Hfeed Hin]]]]].
  exists i. split; [exact Hi|]. split; [exact Hid|].
  destruct Hin as [<- | []]. exact Hfeed.
Defined.

Section RecentlyReadRows.
Context `{Collaborators}.
Variables (ctx : Ctx.t) (input : Input.t) (st : Store).
Hypothesis Htype : Input.type input = recentlyread.

Lemma recentlyread_where (i : Item.t) :
  evalWhere st (viewWhere ctx input st) i = true ->
  (exists s rt, In s (Item.user_items i) /\
                UserItem.marked_read s = true /\
                UserItem.marked_read_time s = Some rt /\
                thirtyDaysAgo ctx <= rt) /\
  (forall s, In s (Item.user_items i) -> UserItem.user_id s = Ctx.user_id ctx).
Proof.
  intros Hw. apply evalWhere_parts in Hw as [_ [_ Hitems]].
  unfold viewWhere in Hitems. rewrite Htype in Hitems.
  unfold whereRecentlyRead, evalUserItemsWhere in Hitems.
  cbn [w_user_items optb uis_some uis_every uis_none] in Hitems.
  rewrite andb_true_r in Hitems. apply andb_prop in Hitems as [Hsome Hevery].
  split.
  - apply existsb_exists in Hsome as [s [Hs Hcond]]. simpl in Hcond.
    apply andb_prop in Hcond as [Hread Htime].
    apply Bool.eqb_prop in Hread.
    destruct (UserItem.marked_read_time s) as [rt|] eqn:Hrt; [|discriminate].
    apply Z.leb_le in Htime. exists s, rt. auto.
  - intros s Hs. rewrite forallb_forall in Hevery.
    specialize (Hevery s Hs). simpl in Hevery. now apply String.eqb_eq.
Qed.
End RecentlyReadRows.

Lemma single_owner_rows (rows : list UserItem.t) (u : string) (s : UserItem.t) :
  NoDup (map UserItem.user_id rows) ->
  (forall s', In s' rows -> UserItem.user_id s' = u) ->
  In s rows ->
  rows = [s].
Proof.
  intros Hnd Hown Hs.
  destruct rows as [|s0 rest]; [contradiction|].
  destruct rest as [|s1 rest].
  - destruct Hs as [-> | []]. reflexivity.
  - exfalso. inversion Hnd as [|? ? Hnot _]; subst. apply Hnot.
    rewrite (Hown s0) by now left.
    rewrite <- (Hown s1) by (right; now left).
    now left.
Qed.

(** X5. In the recently-read view every returned item has a state row
    marked read with a read time within the last thirty days, and all its
    state rows are the requesting user's. When the user has one state row
    per item, the returned item itself says so: its read flag is set and
    its read time is within the last thirty days. *)
Theorem recentlyread_returns_recently_read `{Collaborators}
    (ctx : Ctx.t) (input : Input.t) (st : Store) :
  suppresses_within_page ->
  Input.type input = recentlyread ->
  forall t, In t (transformedItems (result (getUnreadItems ctx input) st)) ->
    exists i, In i (items st) /\ FlatItem.id t = Item.id i /\
      (exists s rt, In s (Item.user_items i) /\
                    UserItem.marked_read s = true /\
                    UserItem.marked_read_time s = Some rt /\
                    thirtyDaysAgo ctx <= rt) /\
      (forall s, In s (Item.user_items i) -> UserItem.user_id s = Ctx.user_id ctx) /\
      (unique_state_rows st ->
       FlatItem.marked_read t = true /\
       exists rt, FlatItem.marked_read_time t = Some rt /\ thirtyDaysAgo ctx <= rt).
Proof.
  intros Hsub Htype t Ht. apply returned_In in Ht; [|now left].
  apply cursorPage_In in Ht as [i [x [Hi [Hw [Hx [_ ->]]]]]].
  apply (recentlyread_where ctx input st Htype) in Hw
    as [[s [rt [Hs [Hread [Htime Hrecent]]]]] Hown].
  exists i. rewrite Hx. split; [exact Hi|]. split; [reflexivity|].
  split; [exists s, rt; auto|]. split; [exact Hown|].
  intros Huniq.
  pose proof (single_owner_rows _ _ s (Huniq i Hi) Hown Hs) as Hrows.
  destruct (recentlyread_query ctx input st Htype) as [_ [_ Hinc]].
  unfold transformItem, includeRelations.
  cbn [Fetched.user_items FlatItem.marked_read FlatItem.marked_read_time].
  rewrite Hinc, Hrows.
  split; [exact Hread|]. exists rt. auto.
Qed.

Lemma read_unique_state_rows : unique_state_rows readStore.
Proof.
  intros i Hi. simpl in Hi.
  destruct Hi as [<- | [<- | [<- | []]]]; simpl;
    (constructor; [intros [] | constructor]).
Qed.

Lemma recentlyread_returns_recently_read_witness :
  let C := sampleCollaborators [] in
  let input := request 2 Latest recentlyread None in
  let r := result (getUnreadItems sampleCtx input) readStore in
  suppresses_within_page /\
  Input.type input = recentlyread /\
  unique_state_rows readStore /\
  map FlatItem.id (transformedItems r) = ["2"; "1"]%string /\
  forall t, In t (transformedItems r) -> FlatItem.marked_read t = true.
Proof.
  intros C input r.
  split; [apply sample_suppresses_within_page|].
  split; [reflexivity|].
  split; [apply read_unique_state_rows|].
  split; [reflexivity|].
  intros t Ht.
  destruct (@recentlyread_returns_recently_read C sampleCtx input readStore
              (sample_suppresses_within_page []) eq_refl t Ht)
    as [i [_ [_ [_ [_ Hflat]]]]].
  apply (Hflat read_unique_state_rows).
Defined.

(** The projected item does not look at the subscription rows attached to
    the feed. *)
Lemma transformItem_includeRelations (st : Store) (inc inc' : ItemInclude)
    (i : Item.t) :
  inc_user_items inc = inc_user_items inc' ->
  transformItem (includeRelations st inc i) =
  transformItem (includeRelations st inc' i).
Proof.
  intros Hinc. unfold transformItem, includeRelations. simpl. rewrite Hinc.
  destruct (feedOf st i); reflexivity.
Qed.

(** X6. The newsletters view is not scoped to the requesting user: every
    returned item is a newsletter item of the store, and the response is the
    same whoever asks and whenever. *)
Theorem newsletters_view_is_not_user_scoped `{Collaborators}
    (ctx ctx' : Ctx.t) (input : Input.t) (st : Store) :
  Input.type input = newsletters ->
  result (getUnreadItems ctx input) st = result (getUnreadItems ctx' input) st /\
  forall t, In t (transformedItems (result (getUnreadItems ctx input) st)) ->
    exists i, In i (items st) /\ FlatItem.id t = Item.id i /\
              Item.from_newsletter i = true.
Proof.
  intros Htype. split.
  - rewrite !getUnreadItems_result.
    assert (Hpage : cursorPage ctx input st = cursorPage ctx' input st).
    { unfold cursorPage, arrangePage, viewQuery, viewWhere, findMany, transformItems.
      rewrite Htype. rewrite !map_map.
      change (selectRows st (sharedQuery ctx' input whereNewsletters))
        with (selectRows st (sharedQuery ctx input whereNewsletters)).
      apply map_ext. intros i. apply transformItem_includeRelations.
      reflexivity. }
    unfold suppress, suppressionFlag. rewrite Htype, Hpage. reflexivity.
  - intros t Ht. apply returned_In in Ht; [|right; now rewrite Htype].
    apply cursorPage_In in Ht as [i [x [Hi [Hw [Hx [_ ->]]]]]].
    exists i. rewrite Hx. split; [exact Hi|]. split; [reflexivity|].
    unfold viewWhere in Hw. rewrite Htype in Hw.
    unfold evalWhere, whereNewsletters in Hw. simpl in Hw.
    rewrite !andb_true_r in Hw. now apply Bool.eqb_prop in Hw.
Qed.

Lemma newsletters_view_is_not_user_scoped_witness :
  let C := sampleCollaborators [] in
  let input := request 5 Latest newsletters None in
  Input.type input = newsletters /\
  map FlatItem.id
      (transformedItems (result (getUnreadItems sampleCtx input) newsletterStore))
  = ["3"; "1"]%string /\
  result (getUnreadItems sampleCtx input) newsletterStore =
  result (getUnreadItems otherCtx input) newsletterStore.
Proof.
  intros C input.
  split; [reflexivity|]. split; [reflexivity|].
  exact (proj1 (@newsletters_view_is_not_user_scoped C sampleCtx otherCtx input
                  newsletterStore eq_refl)).
Defined.

(** X7. The four sorts other than Latest and Oldest are indistinguishable:
    two requests that differ only in which of them they name get the same
    response through the same store calls; outside the recently-read view
    their query carries no ordering at all. *)
Theorem unordered_sorts_are_indistinguishable `{Collaborators}
    (ctx : Ctx.t) (a b : Input.t) (st : Store) :
  same_but_sort a b ->
  unorderedSort (Input.sort a) ->
  unorderedSort (Input.sort b) ->
  getUnreadItems ctx a st = getUnreadItems ctx b st /\
  (Input.type a <> recentlyread ->
   forall q, In (CallFindMany q) (calls (getUnreadItems ctx a) st) ->
             fm_orderBy q = None).
Proof.
  intros [Hamount [Htype [Hfolder [Hfeed Hcursor]]]] [Ha1 Ha2] [Hb1 Hb2].
  destruct a as [amount sa ta folder feed cursor].
  destruct b as [amount' sb tb folder' feed' cursor'].
  simpl in *. subst amount' tb folder' feed' cursor'.
  split.
  - destruct sa; try contradiction; destruct sb; try contradiction;
      destruct ta; reflexivity.
  - intros Hrr q Hq. rewrite getUnreadItems_calls in Hq.
    apply in_app_or in Hq as [Hq | Hq].
    + simpl in Hq. destruct ta; simpl in Hq; try contradiction.
      destruct Hq as [Hq | []]. discriminate.
    + destruct Hq as [Hq | []]. injection Hq as <-.
      unfold viewQuery, sharedQuery. simpl.
      destruct ta; try contradiction; destruct sa; try contradiction; reflexivity.
Qed.

Lemma unordered_sorts_are_indistinguishable_witness :
  let C := sampleCollaborators [] in
  let a := request 5 ReadabilityAscending all None in
  let b := request 5 ContentLengthDescending all None in
  same_but_sort a b /\
  unorderedSort (Input.sort a) /\
  unorderedSort (Input.sort b) /\
  getUnreadItems sampleCtx a mixedStore = getUnreadItems sampleCtx b mixedStore /\
  map FlatItem.id (transformedItems (result (getUnreadItems sampleCtx a) mixedStore))
  = ["1"; "2"]%string.
Proof.
  intros C a b.
  assert (Hsame : same_but_sort a b) by (repeat split).
  assert (Ha : unorderedSort (Input.sort a)) by (split; discriminate).
  assert (Hb : unorderedSort (Input.sort b)) by (split; discriminate).
  split; [exact Hsame|]. split; [exact Ha|]. split; [exact Hb|].
  split; [|reflexivity].
  exact (proj1 (@unordered_sorts_are_indistinguishable C sampleCtx a b mixedStore
                  Hsame Ha Hb)).
Defined.

(* ================================================================== *)
(** * Further properties of the search procedures *)
(* ================================================================== *)

Lemma findMany_search_ext (st : Store) (w w' : ItemWhere) (take : Z) :
  (forall i, evalWhere st w i = evalWhere st w' i) ->
  findMany st (searchArgs w take) = findMany st (searchArgs w' take).
Proof.
  intros Hext. unfold findMany. rewrite !selectRows_search.
  rewrite (filter_ext_eq _ _ (items st) Hext). reflexivity.
Qed.


(** X8. Every hit of [searchMultipleItems], on either plan, comes from an
    item of a feed the user subscribes to and carries that feed's title and
    a body that is never null: the translation of the item's body, or of
    the empty text when the item has none. There are at most [|take|]
    hits. *)
Theorem search_hits_are_well_formed `{Collaborators}
    (ctx : Ctx.t) (input : SearchInput.t) (st : Store) :
  (List.length (result (searchMultipleItems ctx input) st)
   <= Z.abs_nat (SearchInput.take input))%nat /\
  forall h, In h (result (searchMultipleItems ctx input) st) ->
    exists i f,
      In i (items st) /\
      SearchItem.id h = Item.id i /\
      Item.title (Fetched.item (SearchItem.row h)) = Item.title i /\
      feedOf st i = Some f /\
      subscribedTo st (Ctx.user_id ctx) i = true /\
      SearchItem.feed_title h = Some (Feed.title f) /\
      Item.website_content (Fetched.item (SearchItem.row h)) =
        Some (translate (match Item.website_content i with
                         | Some c => c
                         | None => EmptyString
                         end)).
Proof.
  unfold result, searchMultipleItems. simpl. split.
  - rewrite length_map.
    apply (findMany_length st (searchArgs (whereSearch ctx input) (SearchInput.take input))).
  - intros h Hh. apply in_map_iff in Hh as [x [<- Hx]].
    apply findMany_In in Hx as [i [-> [Hi Hw]]].
    unfold searchArgs in Hw. cbn [fm_where] in Hw.
    apply evalWhere_parts in Hw as [_ [Hfeed _]].
    unfold whereSearch in Hfeed. cbn [w_feed optb] in Hfeed.
    unfold subscribedTo.
    destruct (feedOf st i) as [f|] eqn:Hf; [|discriminate].
    exists i, f. unfold toSearchItem, includeRelations. simpl. rewrite Hf. simpl.
    repeat split; try reflexivity; try assumption.
    unfold evalFeedWhere, subscribedBy in Hfeed. simpl in Hfeed.
    now rewrite andb_true_r in Hfeed.
Qed.


(** X10. Searching without a query. With the query absent the plan makes
    no difference; on the free plan the empty query gives what the absent
    query gives; on the pro plan the empty query returns only items that
    have a body. *)
Theorem search_without_query `{Collaborators}
    (ctx : Ctx.t) (take : Z) (st : Store) :
  let search q p :=
    result (searchMultipleItems ctx
              {| SearchInput.query := q; SearchInput.plan := p;
                 SearchInput.take := take |}) st in
  search None pro = search None free /\
  search (Some EmptyString) free = search None free /\
  forall h, In h (search (Some EmptyString) pro) ->
    exists i, In i (items st) /\ SearchItem.id h = Item.id i /\
              Item.website_content i <> None.
Proof.
  intros search. subst search.
  unfold result, searchMultipleItems. simpl.
  split; [|split].
  - reflexivity.
  - f_equal. apply findMany_search_ext. intros i.
    unfold evalWhere, whereSearch. simpl. unfold evalStringFilter. simpl.
    now rewrite contains_insensitive_empty.
  - intros h Hh. apply in_map_iff in Hh as [x [<- Hx]].
    apply findMany_In in Hx as [i [-> [Hi Hw]]].
    unfold searchArgs in Hw. cbn [fm_where] in Hw.
    apply (evalWhere_search_pro ctx
             {| SearchInput.query := Some EmptyString; SearchInput.plan := pro;
                SearchInput.take := take |} st i EmptyString eq_refl eq_refl) in Hw
      as [_ [c [Hc _]]].
    exists i. split; [exact Hi|]. split; [reflexivity|]. congruence.
Qed.

(** The empty query over [bodylessStore]: the free plan returns both items,
    the pro plan only the one that has a body. *)
Example empty_query_on_bodylessStore :
  let C := sampleCollaborators [] in
  let search p :=
    map SearchItem.id
        (result (searchMultipleItems sampleCtx
                   {| SearchInput.query := Some EmptyString; SearchInput.plan := p;
                      SearchInput.take := 10 |}) bodylessStore) in
  search free = ["1"; "2"]%string /\ search pro = ["1"]%string.
Proof. split; reflexivity. Qed.

(* ================================================================== *)
(** * Paging through the bookmarks and the newsletters *)
(* ================================================================== *)

Lemma concat_map_map {A B : Type} (g : A -> B) (ls : list (list A)) :
  List.concat (map (map g) ls) = map g (List.concat ls).
Proof.
  induction ls as [|l ls IH]; simpl; [reflexivity|].
  now rewrite map_app, IH.
Qed.

(** X11. The bookmarks and the newsletters views, which hand out the
    fetched page as it is, return every qualifying item exactly once when
    paged through by feeding each cursor back (ids a primary key, a positive
    [amount], sort Latest or Oldest): no id comes back twice, and an item of
    the store comes back exactly when, for bookmarks, all its state rows are
    the user's and one of them is saved for later or filed in a folder of
    the user, and, for newsletters, it is a newsletter item. *)
Theorem unsuppressed_views_page_exactly_once `{Collaborators}
    (ctx : Ctx.t) (input : Input.t) (st : Store) (fuel : nat) :
  unique_item_ids st ->
  0 < Input.amount input ->
  Input.cursor input = None ->
  Input.type input = bookmarks \/ Input.type input = newsletters ->
  Input.sort input = Latest \/ Input.sort input = Oldest ->
  (List.length (items st) < fuel)%nat ->
  let returned :=
    List.concat (map transformedItems (pagesFrom fuel ctx input st)) in
  NoDup (map FlatItem.id returned) /\
  (Input.type input = bookmarks ->
   forall i, In i (items st) ->
     (In (Item.id i) (map FlatItem.id returned) <->
      (exists s, In s (Item.user_items i) /\
                 (UserItem.in_read_later s = true \/
                  exists l, In l (UserItem.bookmark_folders s) /\
                            BookmarkLink.user_id l = Ctx.user_id ctx)) /\
      (forall s, In s (Item.user_items i) ->
                 UserItem.user_id s = Ctx.user_id ctx))) /\
  (Input.type input = newsletters ->
   forall i, In i (items st) ->
     (In (Item.id i) (map FlatItem.id returned) <-> Item.from_newsletter i = true)).
Proof.
  intros Huniq Hamount Hcursor Hview Hsort Hfuel returned.
  assert (Hplain : Input.type input <> all /\ Input.type input <> recentlyread)
    by (destruct Hview as [-> | ->]; split; discriminate).
  destruct (sharedQuery_orderBy ctx input (viewWhere ctx input st)
              (proj2 Hplain) Hsort) as [d Hd].
  fold (viewQuery ctx input st) in Hd.
  set (qualifying :=
         orderRows (Some d)
           (filter (evalWhere st (viewWhere ctx input st)) (items st))).
  assert (Hreturned : map FlatItem.id returned = map Item.id qualifying).
  { subst returned.
    rewrite <- (withCursor_same input) at 1. rewrite Hcursor.
    rewrite (pagesFrom_chunks ctx input st d Huniq Hamount Hplain Hd fuel []
               qualifying None);
      [|reflexivity | left; split; reflexivity].
    assert (Hsuppress : forall page, suppress ctx input page = page).
    { intros page. unfold suppress, suppressionFlag.
      destruct Hview as [-> | ->]; reflexivity. }
    rewrite map_map.
    rewrite (map_ext _
               (map (fun i => transformItem
                                (includeRelations st
                                   (fm_include (viewQuery ctx input st)) i)))).
    2: { intros page. cbn [transformedItems]. rewrite Hsuppress.
         unfold transformItems. apply map_map. }
    rewrite concat_map_map, chunks_concat.
    - rewrite map_map. reflexivity.
    - lia.
    - unfold qualifying. simpl. rewrite sortBy_length.
      pose proof (subseq_length _ _
                    (subseq_filter (evalWhere st (viewWhere ctx input st)) (items st))).
      lia. }
  rewrite Hreturned.
  assert (Hin : forall i, In i (items st) ->
                  (In (Item.id i) (map Item.id qualifying) <->
                   evalWhere st (viewWhere ctx input st) i = true)).
  { intros i Hi. split.
    - intros Hid. apply in_map_iff in Hid as [i' [Hid Hi']].
      apply (qualifying_In ctx input st d) in Hi' as [Hi' Hw].
      assert (i' = i) by (eapply NoDup_map_inj; eauto). now subst.
    - intros Hw. apply in_map. apply (qualifying_In ctx input st d). auto. }
  split; [now apply qualifying_NoDup|].
  split.
  - intros Htype i Hi. rewrite (Hin i Hi).
    apply (bookmarks_where ctx input st Htype).
  - intros Htype i Hi. rewrite (Hin i Hi).
    unfold viewWhere. rewrite Htype.
    unfold evalWhere, whereNewsletters. simpl. rewrite !andb_true_r.
    split; [apply Bool.eqb_prop | intros ->; reflexivity].
Qed.

Lemma unsuppressed_views_page_exactly_once_witness :
  let C := sampleCollaborators [] in
  let input := request 1 Latest bookmarks None in
  let returned :=
    List.concat (map transformedItems (pagesFrom 5 sampleCtx input sharedStore)) in
  unique_item_ids sharedStore /\
  0 < Input.amount input /\
  map FlatItem.id returned = ["4"; "1"]%string /\
  NoDup (map FlatItem.id returned).
Proof.
  intros C input returned.
  split; [apply sample_unique_item_ids|].
  split; [reflexivity|]. split; [reflexivity|].
  apply (@unsuppressed_views_page_exactly_once C sampleCtx input sharedStore 5
           sample_unique_item_ids eq_refl eq_refl (or_introl eq_refl)
           (or_introl eq_refl)).
  simpl. lia.
Defined.

(** Witness for the early end of paging in the "all" view: over
    [backlogStore] the fetched row "3" fails the subscription-window check,
    and the first page comes back without a cursor. *)
Lemma all_view_no_cursor_after_drop_witness :
  let C := sampleCollaborators [] in
  let input := request 2 Latest all None in
  let old := includeRelations backlogStore
               (fm_include (viewQuery sampleCtx input backlogStore))
               (article "3" "Before subscribing" 900 "f1" []) in
  In old (findMany backlogStore (viewQuery sampleCtx input backlogStore)) /\
  afterPaginationStart old = false /\
  nextCursor (result (getUnreadItems sampleCtx input) backlogStore) = None.
Proof.
  intros C input old.
  assert (Hin : In old (findMany backlogStore (viewQuery sampleCtx input backlogStore)))
    by (left; reflexivity).
  split; [exact Hin|]. split; [reflexivity|].
  apply (@all_view_no_cursor_after_drop C sampleCtx input backlogStore old
           eq_refl eq_refl Hin eq_refl).
Defined.

(* ================================================================== *)
(** * The in-memory sort keeps the fetch order among ties *)
(* ================================================================== *)

Section Stability.
Context {A : Type} (le : A -> A -> bool) (R : A -> A -> Prop).
Hypothesis le_total : forall a b, le a b = true \/ le b a = true.
Hypothesis le_trans : forall a b c, le a b = true -> le b c = true -> le a c = true.

Lemma insertBy_stable (x : A) (l : list A) :
  StronglySorted (stableOrder le R) l ->
  Forall (R x) l ->
  StronglySorted (stableOrder le R) (insertBy le x l).
Proof.
  induction 1 as [|y l Hs IH Hall]; intros Hx; simpl.
  - repeat constructor.
  - inversion Hx as [|? ? Hxy Hxl]; subst.
    destruct (le x y) eqn:E.
    + constructor; [now constructor|].
      constructor; [split; auto|].
      rewrite Forall_forall in *. intros z Hz. split.
      * eapply le_trans; [exact E | apply (Hall z Hz)].
      * intros _. now apply Hxl.
    + constructor; [now apply IH|].
      eapply Permutation_Forall; [apply Permutation_sym, insertBy_perm|].
      constructor; [|exact Hall].
      split; [|congruence].
      destruct (le_total x y) as [Hle | Hle]; [congruence | exact Hle].
Qed.

Lemma sortBy_stable (l : list A) :
  StronglySorted R l -> StronglySorted (stableOrder le R) (sortBy le l).
Proof.
  induction 1 as [|x l Hs IH Hall]; simpl; [constructor|].
  apply insertBy_stable; [exact IH|].
  eapply Permutation_Forall; [apply Permutation_sym, sortBy_perm | exact Hall].
Qed.
End Stability.

Lemma findMany_rows_sorted (st : Store) (a : FindManyArgs) (d : SortOrder) :
  fm_orderBy a = Some d ->
  StronglySorted (fun x y => id_le d (Fetched.id x) (Fetched.id y) = true)
                 (findMany st a).
Proof.
  intros Hd. unfold findMany. apply StronglySorted_map.
  apply (selectRows_sorted_any st a d Hd).
Qed.

(** X12. In the recently-read view, items read at the same time keep the
    order of the fetch, ids descending, whichever of Latest and Oldest is
    asked for: the page is ordered by read time and, among equal read times,
    by id descending. *)
Theorem recentlyread_ties_keep_fetch_order `{Collaborators}
    (ctx : Ctx.t) (input : Input.t) (st : Store) :
  suppresses_within_page ->
  Input.type input = recentlyread ->
  let r := result (getUnreadItems ctx input) st in
  (Input.sort input = Latest ->
   StronglySorted
     (fun a b => readTime b <= readTime a /\
                 (readTime a = readTime b ->
                  String.leb (FlatItem.id b) (FlatItem.id a) = true))
     (transformedItems r)) /\
  (Input.sort input = Oldest ->
   StronglySorted
     (fun a b => readTime a <= readTime b /\
                 (readTime a = readTime b ->
                  String.leb (FlatItem.id b) (FlatItem.id a) = true))
     (transformedItems r)).
Proof.
  intros Hsub Htype r. subst r.
  rewrite getUnreadItems_result. cbn [transformedItems].
  unfold suppress, suppressionFlag. rewrite Htype.
  destruct (recentlyread_query ctx input st Htype) as [_ [Horder _]].
  pose proof (findMany_rows_sorted st _ desc Horder) as Hfetch.
  split; intros Hsort;
    (eapply subseq_StronglySorted; [apply Hsub|]);
    unfold cursorPage, arrangePage, transformItems; rewrite Htype, Hsort.
  - rewrite (jsSort_byReadTimeDesc ctx input st Htype).
    apply StronglySorted_map.
    eapply StronglySorted_weaken; [|apply sortBy_stable; [| |exact Hfetch]].
    + intros a b [Hle Htie]. apply Z.leb_le in Hle. split; [exact Hle|].
      intros Heq. apply Htie. apply Z.leb_le. lia.
    + intros a b.
      destruct (Z.leb_spec (readTime (transformItem b)) (readTime (transformItem a)));
        [now left|]. right. apply Z.leb_le. lia.
    + intros a b c Hab Hbc. apply Z.leb_le in Hab, Hbc. apply Z.leb_le. lia.
  - rewrite (jsSort_byReadTimeAsc ctx input st Htype).
    apply StronglySorted_map.
    eapply StronglySorted_weaken; [|apply sortBy_stable; [| |exact Hfetch]].
    + intros a b [Hle Htie]. apply Z.leb_le in Hle. split; [exact Hle|].
      intros Heq. apply Htie. apply Z.leb_le. lia.
    + intros a b.
      destruct (Z.leb_spec (readTime (transformItem a)) (readTime (transformItem b)));
        [now left|]. right. apply Z.leb_le. lia.
    + intros a b c Hab Hbc. apply Z.leb_le in Hab, Hbc. apply Z.leb_le. lia.
Qed.

Lemma recentlyread_ties_keep_fetch_order_witness :
  let C := sampleCollaborators [] in
  let page sort :=
    transformedItems
      (result (getUnreadItems sampleCtx (request 5 sort recentlyread None)) tiedStore) in
  suppresses_within_page /\
  map FlatItem.id (page Latest) = ["3"; "1"; "2"]%string /\
  map FlatItem.id (page Oldest) = ["2"; "3"; "1"]%string /\
  StronglySorted
    (fun a b => readTime b <= readTime a /\
                (readTime a = readTime b ->
                 String.leb (FlatItem.id b) (FlatItem.id a) = true))
    (page Latest).
Proof.
  intros C page.
  split; [apply sample_suppresses_within_page|].
  split; [reflexivity|]. split; [reflexivity|].
  apply (@recentlyread_ties_keep_fetch_order C sampleCtx
           (request 5 Latest recentlyread None) tiedStore
           (sample_suppresses_within_page []) eq_refl).
  reflexivity.
Defined.

(* ================================================================== *)
(** * The page after a cursor *)
(* ================================================================== *)

Lemma dropWhile_head {A : Type} (p : A -> bool) (l : list A) (h : A) (tl : list A) :
  dropWhile p l = h :: tl -> p h = false.
Proof.
  induction l as [|x l IH]; simpl; [discriminate|].
  destruct (p x) eqn:E; [exact IH|].
  intros [= <- <-]. exact E.
Qed.

(** Once the cursor row is skipped, nothing with the cursor's id is left. *)
Lemma fromCursor_skip_anchor (st : Store) (o : option SortOrder) (c : string)
    (rows : list Item.t) :
  NoDup (map Item.id rows) ->
  (forall d, o = Some d -> StronglySorted (holds (rows_in_order d)) rows) ->
  ~ In c (map Item.id (skipn 1 (fromCursor st o (Some c) rows))).
Proof.
  intros Hnd Hsorted.
  assert (Hsub : subseq (fromCursor st o (Some c) rows) rows)
    by apply fromCursor_subseq.
  destruct (fromCursor st o (Some c) rows) as [|h tl] eqn:Hfrom; [intros []|].
  simpl. intros Hin. apply in_map_iff in Hin as [x [Hid Hx]].
  pose proof (subseq_NoDup _ _ (subseq_map Item.id _ _ Hsub) Hnd) as Hnd'.
  simpl in Hnd'. inversion Hnd' as [|? ? Hnot _]; subst.
  apply Hnot.
  assert (Hh : Item.id h = Item.id x).
  { destruct o as [d|]; simpl in Hfrom.
    - destruct (existsb _ (items st)); [|discriminate].
      assert (Hhin : In h (filter (fun i => id_le d (Item.id x) (Item.id i)) rows))
        by (rewrite Hfrom; now left).
      apply filter_In in Hhin as [_ Hle].
      pose proof (subseq_StronglySorted _ _ _ Hsub (Hsorted d eq_refl)) as Hs.
      inversion Hs as [|? ? _ Hall]; subst.
      rewrite Forall_forall in Hall.
      symmetry. apply (id_le_antisym d); [exact Hle | apply (Hall x Hx)].
    - apply dropWhile_head in Hfrom. apply negb_false_iff in Hfrom.
      now apply String.eqb_eq in Hfrom. }
  rewrite Hh. now apply in_map.
Qed.

Lemma fromCursor_after (st : Store) (d : SortOrder) (c : string)
    (rows : list Item.t) (x : Item.t) :
  In x (fromCursor st (Some d) (Some c) rows) -> id_le d c (Item.id x) = true.
Proof.
  simpl. destruct (existsb _ (items st)); [|intros []].
  intros Hx. now apply filter_In in Hx.
Qed.

(** X14. A request with a cursor never gets the cursor's item back, and
    when the fetch is ordered every returned item comes after the cursor in
    that order (ids a primary key, [amount] not negative). *)
Theorem page_after_cursor `{Collaborators}
    (ctx : Ctx.t) (input : Input.t) (st : Store) (c : string) :
  suppresses_within_page ->
  unique_item_ids st ->
  0 <= Input.amount input ->
  Input.cursor input = Some c ->
  let r := result (getUnreadItems ctx input) st in
  ~ In c (map FlatItem.id (transformedItems r)) /\
  (forall d, fm_orderBy (sharedQuery ctx input (viewWhere ctx input st)) = Some d ->
   forall t, In t (transformedItems r) ->
             id_le d c (FlatItem.id t) = true /\ FlatItem.id t <> c).
Proof.
  intros Hsub Huniq Hamount Hcursor r. subst r.
  set (q := viewQuery ctx input st).
  set (matching := filter (evalWhere st (fm_where q)) (items st)).
  assert (Hrows : selectRows st q =
                  firstn (Z.to_nat (Input.amount input))
                    (skipn 1 (fromCursor st (fm_orderBy q) (Some c)
                                (orderRows (fm_orderBy q) matching)))).
  { rewrite selectRows_forward by exact Hamount.
    unfold q, viewQuery, sharedQuery. cbn [fm_take fm_skip fm_cursor fm_orderBy fm_where].
    rewrite Hcursor. reflexivity. }
  assert (Hnd : NoDup (map Item.id (orderRows (fm_orderBy q) matching))).
  { assert (Hm : NoDup (map Item.id matching))
      by (eapply subseq_NoDup; [apply subseq_map, subseq_filter | exact Huniq]).
    destruct (fm_orderBy q); simpl; [|exact Hm].
    eapply Permutation_NoDup;
      [apply Permutation_map, Permutation_sym, sortBy_perm | exact Hm]. }
  assert (Hsorted : forall d, fm_orderBy q = Some d ->
                      StronglySorted (holds (rows_in_order d))
                                     (orderRows (fm_orderBy q) matching)).
  { intros d Hd. rewrite Hd. apply orderRows_sorted. }
  assert (Hfetched : forall t,
             In t (transformedItems (result (getUnreadItems ctx input) st)) ->
             exists i, In i (skipn 1 (fromCursor st (fm_orderBy q) (Some c)
                                        (orderRows (fm_orderBy q) matching))) /\
                       FlatItem.id t = Item.id i).
  { intros t Ht. apply returned_In in Ht; [|now left].
    unfold cursorPage, transformItems in Ht.
    apply in_map_iff in Ht as [x [<- Hx]].
    apply arrangePage_In in Hx. fold q in Hx. unfold findMany in Hx.
    apply in_map_iff in Hx as [i [<- Hi]]. rewrite Hrows in Hi.
    exists i. split; [|reflexivity].
    eapply subseq_In; [apply subseq_firstn | exact Hi]. }
  split.
  - intros Hin. apply in_map_iff in Hin as [t [Hid Ht]].
    destruct (Hfetched t Ht) as [i [Hi Hti]].
    apply (fromCursor_skip_anchor st (fm_orderBy q) c _ Hnd Hsorted).
    apply in_map_iff. exists i. split; [congruence | exact Hi].
  - intros d Hd t Ht. fold (viewQuery ctx input st) in Hd. fold q in Hd.
    destruct (Hfetched t Ht) as [i [Hi Hti]].
    split.
    + rewrite Hti. apply (fromCursor_after st d c (orderRows (fm_orderBy q) matching)).
      rewrite <- Hd. eapply subseq_In; [apply subseq_skipn | exact Hi].
    + intros Heq.
      apply (fromCursor_skip_anchor st (fm_orderBy q) c _ Hnd Hsorted).
      apply in_map_iff. exists i. split; [congruence | exact Hi].
Qed.

Lemma page_after_cursor_witness :
  let C := sampleCollaborators [] in
  let input :=
    {| Input.amount := 2; Input.sort := Latest; Input.type := one;
       Input.folder := None; Input.feed_id := Some "f1"%string;
       Input.cursor := Some "2"%string |} in
  let r := result (getUnreadItems sampleCtx input) backlogStore in
  suppresses_within_page /\
  unique_item_ids backlogStore /\
  map FlatItem.id (transformedItems r) = ["1"]%string /\
  ~ In "2"%string (map FlatItem.id (transformedItems r)).
Proof.
  intros C input r.
  split; [apply sample_suppresses_within_page|].
  split; [apply backlog_unique_item_ids|].
  split; [reflexivity|].
  apply (@page_after_cursor C sampleCtx input backlogStore "2"%string
           (sample_suppresses_within_page []) backlog_unique_item_ids).
  - discriminate.
  - reflexivity.
Defined.
